(** * hagz-push-server: batch push dispatch, game invitations, match reminders

    A shallow embedding of the three senders of the repository
    ([pushNotificationSender.js], the game-invitation sender and the
    match-reminder sender) together with the properties their
    specification states about them.

    The JavaScript is effectful: it talks to the Expo push service and to a
    Supabase store, and any of these calls may throw.  The embedding threads an
    explicit trace of the external calls that were issued and keeps the
    completion kind (normal / thrown) of every computation, so that
    [try { ... } catch] can be written as it is in the source.  Console output
    is not modelled. *)

From Stdlib Require Import String Ascii Arith Bool Lia List.
Import ListNotations.
Open Scope string_scope.
Open Scope list_scope.
Open Scope nat_scope.

(** ** JavaScript values that the senders rely on *)

Module Js.

(** An [Error] object; the senders only ever read its [message]. *)
Record Error : Type := { message : string }.

(** How the evaluation of a statement or of an awaited promise ends. *)
Inductive Completion (A : Type) : Type :=
| Normal (a : A)
| Thrown (e : Error).
Arguments Normal {A} a.
Arguments Thrown {A} e.

(** Truthiness of a value that is a string, [null] or [undefined]. *)
Definition truthy (v : option string) : bool :=
  match v with
  | Some s => negb (String.eqb s "")
  | None => false
  end.

(** [a || b] on such values. *)
Definition or_else (a b : option string) : option string :=
  if truthy a then a else b.

(** [a || 'literal'] *)
Definition or_default (a : option string) (literal : string) : string :=
  match a with
  | Some s => if String.eqb s "" then literal else s
  | None => literal
  end.

(** The error raised when a property of [undefined] is read. *)
Definition TypeError (what : string) : Error :=
  {| message :=
       ("Cannot read properties of undefined (reading '" ++ what ++ "')")%string |}.

End Js.

(** ** The Expo server SDK: data, token grammar and chunking *)

Module Expo.

Definition Payload : Type := list (string * string).

(** A push message, with the fields the senders fill in. *)
Record Message : Type := {
  to : string;
  sound : string;
  title : string;
  body : string;
  data : Payload;
  priority : string;
  badge : option nat;
  channelId : option string
}.

Record TicketDetails : Type := { error : option string }.

(** A push ticket: [{status: 'ok', id}] or
    [{status: 'error', message, details?}]. *)
Inductive Ticket : Type :=
| SuccessTicket (id : string)
| ErrorTicket (message : string) (details : option TicketDetails).

Definition status (t : Ticket) : string :=
  match t with
  | SuccessTicket _ => "ok"
  | ErrorTicket _ _ => "error"
  end.

Definition details (t : Ticket) : option TicketDetails :=
  match t with
  | SuccessTicket _ => None
  | ErrorTicket _ d => d
  end.

(** [ticket.message]; present on error tickets only. *)
Definition message (t : Ticket) : option string :=
  match t with
  | SuccessTicket _ => None
  | ErrorTicket m _ => Some m
  end.

(** [ticket.details && ticket.details.error === kind] *)
Definition detailsErrorIs (t : Ticket) (kind : string) : bool :=
  match details t with
  | Some d =>
      match error d with
      | Some e => String.eqb e kind
      | None => false
      end
  | None => false
  end.

(** *** Token grammar *)

Definition startsWith (prefix s : string) : bool := String.prefix prefix s.

Definition endsWith (suffix s : string) : bool :=
  let n := String.length suffix in
  let m := String.length s in
  (n <=? m) && String.eqb (String.substring (m - n) n s) suffix.

Definition isAlnum (c : ascii) : bool :=
  let n := nat_of_ascii c in
  ((48 <=? n) && (n <=? 57)) || ((65 <=? n) && (n <=? 90))
  || ((97 <=? n) && (n <=? 122)).

(** Matches a sequence of alphanumeric groups of the given sizes, separated
    by hyphens, against the whole of [s]. *)
Fixpoint matchGroups (groups : list nat) (s : string) : bool :=
  match groups with
  | [] => false
  | n :: rest =>
      let g := String.substring 0 n s in
      let tail := String.substring n (String.length s - n) s in
      (String.length g =? n)
      && forallb isAlnum (list_ascii_of_string g)
      && match rest with
         | [] => String.eqb tail ""
         | _ => match tail with
                | String "-" tail' => matchGroups rest tail'
                | _ => false
                end
         end
  end.

(** Modelled from the spec: the provider's token-validity predicate
    ([Expo.isExpoPushToken] of the expo-server-sdk package, which is not part
    of the sources).  The spec only says that an address is well-formed when
    it matches the provider's token grammar; the grammar written here is the
    one the usage texts of the sources show ([ExponentPushToken[...]]), with
    the SDK's other two forms.  It is used to build concrete environments;
    the theorems hold for every validity predicate. *)
Definition isExpoPushToken (token : string) : bool :=
  ((startsWith "ExponentPushToken[" token || startsWith "ExpoPushToken[" token)
   && endsWith "]" token)
  || matchGroups [8; 4; 4; 4; 12] token.

(** *** Chunking *)

Definition pushNotificationChunkSizeLimit : nat := 100.

(** Modelled from the spec: the pass behind [expo.chunkPushNotifications],
    which is not part of the sources.  [chunk] is the batch being filled,
    [count] its size and [chunks] the batches already closed.  A batch is
    closed as soon as it holds [limit] messages; a non-empty last batch is
    closed at the end. *)
Fixpoint chunkLoop (limit : nat) (messages chunk : list Message) (count : nat)
         (chunks : list (list Message)) : list (list Message) :=
  match messages with
  | [] => if (count =? 0) then chunks else chunks ++ [chunk]
  | m :: rest =>
      if (limit <=? S count)
      then chunkLoop limit rest [] 0 (chunks ++ [chunk ++ [m]])
      else chunkLoop limit rest (chunk ++ [m]) (S count) chunks
  end.

(** Modelled from the spec: [expo.chunkPushNotifications] belongs to the
    expo-server-sdk package, which is not part of the sources.  The spec
    has it split the validated, ordered list into contiguous batches no
    larger than the provider's maximum chunk size (100), preserving the
    original relative order. *)
Definition chunkPushNotifications (messages : list Message) : list (list Message) :=
  chunkLoop pushNotificationChunkSizeLimit messages [] 0 [].

(** The sizes of the batches [chunkLoop] produces for [n] further messages
    when the open batch already holds [count]. *)
Fixpoint chunkSizes (limit n count : nat) : list nat :=
  match n with
  | 0 => if (count =? 0) then [] else [count]
  | S n' =>
      if (limit <=? S count)
      then S count :: chunkSizes limit n' 0
      else chunkSizes limit n' (S count)
  end.

End Expo.

(** ** The Supabase client: responses and rows *)

Module Supabase.

(** [{ data, error }] as a query resolves to. *)
Record Response (A : Type) : Type := {
  data : option A;
  error : option string
}.
Arguments data {A} r.
Arguments error {A} r.

End Supabase.

(** A row of [user_profiles]. *)
Module UserProfile.
Record t : Type := {
  id : string;
  push_token : option string;
  full_name : option string;
  email : option string
}.
End UserProfile.

(** A row returned by [get_match_participants]. *)
Module Participant.
Record t : Type := {
  user_id : string;
  push_token : option string;
  email : string
}.
End Participant.

(** A row returned by [get_matches_needing_reminders]. *)
Module Match.
Record t : Type := {
  booking_id : string;
  pitch_name : string;
  match_date : string;
  match_time : string;
  match_type : string
}.
End Match.

(** A row inserted into [notifications]. *)
Module Notification.
Record t : Type := {
  user_id : string;
  type : string;
  title : string;
  message : string;
  data : list (string * string);
  status : string
}.
End Notification.

(** ** External calls, their trace and the environment that answers them *)

Inductive Call : Type :=
| SendPushNotificationsAsync (chunk : list Expo.Message)
| RpcGetMatchParticipants (booking_uuid : string)
| RpcMarkReminderSent (booking_uuid : string)
| InsertNotifications (records : list Notification.t)
| UpdatePushTokenNull (userId : string)
| SelectUserProfile (columns : string) (userId : string).

(** The calls issued so far, oldest first. *)
Definition World : Type := list Call.

(** What lies outside the program.  Every answer may depend on the number of
    calls issued before it, so that a transport or a store whose behaviour
    changes from one call to the next is covered. *)
Record Env : Type := {
  isExpoPushToken : string -> bool;
  sendPushNotificationsAsync :
    nat -> list Expo.Message -> Js.Completion (list Expo.Ticket);
  rpc_get_match_participants :
    nat -> string -> Js.Completion (Supabase.Response (list Participant.t));
  rpc_mark_reminder_sent : nat -> string -> Js.Completion (Supabase.Response unit);
  insert_notifications :
    nat -> list Notification.t -> Js.Completion (Supabase.Response unit);
  update_push_token_null : nat -> string -> Js.Completion (Supabase.Response unit);
  select_user_profile :
    nat -> string -> string -> Js.Completion (Supabase.Response UserProfile.t);
  (** [new Date().toISOString()], for the [k]-th row built at a given time *)
  date_now : nat -> nat -> string;
  (** [new Date(s).toLocaleString('en-US', ...)] *)
  date_toLocaleString : string -> string
}.

(** ** Computations: a trace of calls and a completion *)

Definition M (A : Type) : Type := World -> Js.Completion A * World.

Definition ret {A : Type} (a : A) : M A := fun w => (Js.Normal a, w).

Definition throw {A : Type} (e : Js.Error) : M A := fun w => (Js.Thrown e, w).

Definition bind {A B : Type} (m : M A) (k : A -> M B) : M B :=
  fun w =>
    match m w with
    | (Js.Normal a, w') => k a w'
    | (Js.Thrown e, w') => (Js.Thrown e, w')
    end.

(** [try { m } catch (e) { handler e }] *)
Definition try_catch {A : Type} (m : M A) (handler : Js.Error -> M A) : M A :=
  fun w =>
    match m w with
    | (Js.Normal a, w') => (Js.Normal a, w')
    | (Js.Thrown e, w') => handler e w'
    end.

(** [await] of an external call: it is recorded, and the environment decides
    how it completes. *)
Definition await {A : Type} (c : Call) (answer : nat -> Js.Completion A) : M A :=
  fun w => (answer (length w), w ++ [c]).

(** Reading the clock does not count as a call. *)
Definition clock : M nat := fun w => (Js.Normal (length w), w).

Declare Scope js_scope.
Delimit Scope js_scope with js.
Notation "x <- m ;; k" := (bind m (fun x => k))
  (at level 61, m at next level, right associativity) : js_scope.
Notation "m ;;; k" := (bind m (fun _ => k))
  (at level 61, right associativity) : js_scope.
Open Scope js_scope.

(** The calls made to clear a user's token. *)
Definition isCleanup (c : Call) : Prop :=
  match c with
  | UpdatePushTokenNull _ => True
  | _ => False
  end.

(** The batches handed to the transport, in the order of the calls. *)
Fixpoint submissions (w : World) : list (list Expo.Message) :=
  match w with
  | [] => []
  | SendPushNotificationsAsync chunk :: w' => chunk :: submissions w'
  | _ :: w' => submissions w'
  end.

(** ** pushNotificationSender.js *)

Module PushNotificationSender.

(** The object [sendPushNotifications] resolves to.  An entry of
    [invalidTokens] is [None] when the source pushed [undefined], which is
    what [tokens[index]] yields past the end of [tokens]. *)
Record DispatchResult : Type := {
  success : nat;
  failed : nat;
  total : nat;
  invalidTokens : list (option string);
  tickets : list Expo.Ticket
}.

(** The three accumulators of the counting pass. *)
Record Counters : Type := {
  successCount : nat;
  failureCount : nat;
  invalidTokensAcc : list (option string)
}.

Section Sender.

Variable env : Env.

Definition message (pushToken title body : string) (data : Expo.Payload) : Expo.Message :=
  {| Expo.to := pushToken;
     Expo.sound := "notification_sound.wav";
     Expo.title := title;
     Expo.body := body;
     Expo.data := data;
     Expo.priority := "high";
     Expo.badge := None;
     Expo.channelId := None |}.

(** [for (const pushToken of tokens)]: a token that is not a valid Expo
    push token is skipped, every other one appends a message. *)
Fixpoint buildMessages (tokens : list string) (title body : string)
         (data : Expo.Payload) (messages : list Expo.Message) : list Expo.Message :=
  match tokens with
  | [] => messages
  | pushToken :: rest =>
      if negb (isExpoPushToken env pushToken)
      then buildMessages rest title body data messages
      else buildMessages rest title body data
             (messages ++ [message pushToken title body data])
  end.

(** [for (const chunk of chunks)]: the tickets of a chunk are appended to
    [tickets]; a chunk whose submission throws leaves [tickets] as it is. *)
Fixpoint sendChunks (chunks : list (list Expo.Message)) (tickets : list Expo.Ticket)
  : M (list Expo.Ticket) :=
  match chunks with
  | [] => ret tickets
  | chunk :: rest =>
      tickets' <- try_catch
                    (ticketChunk <- await (SendPushNotificationsAsync chunk)
                                      (fun t => sendPushNotificationsAsync env t chunk) ;;
                     ret (tickets ++ ticketChunk))
                    (fun _ => ret tickets) ;;
      sendChunks rest tickets'
  end.

(** The body of [tickets.forEach((ticket, index) => ...)]. *)
Definition countTicket (tokens : list string) (ticket : Expo.Ticket) (index : nat)
           (c : Counters) : Counters :=
  if String.eqb (Expo.status ticket) "ok"
  then {| successCount := S (successCount c);
          failureCount := failureCount c;
          invalidTokensAcc := invalidTokensAcc c |}
  else {| successCount := successCount c;
          failureCount := S (failureCount c);
          invalidTokensAcc :=
            if Expo.detailsErrorIs ticket "DeviceNotRegistered"
            then invalidTokensAcc c ++ [nth_error tokens index]
            else invalidTokensAcc c |}.

Fixpoint countResults (tokens : list string) (tickets : list Expo.Ticket)
         (index : nat) (c : Counters) : Counters :=
  match tickets with
  | [] => c
  | ticket :: rest =>
      countResults tokens rest (S index) (countTicket tokens ticket index c)
  end.

Definition sendPushNotifications (tokens : list string) (title body : string)
           (data : Expo.Payload) : M DispatchResult :=
  let messages := buildMessages tokens title body data [] in
  let chunks := Expo.chunkPushNotifications messages in
  tickets <- sendChunks chunks [] ;;
  let c := countResults tokens tickets 0
             {| successCount := 0; failureCount := 0; invalidTokensAcc := [] |} in
  ret {| success := successCount c;
         failed := failureCount c;
         total := length tokens;
         invalidTokens := invalidTokensAcc c;
         tickets := tickets |}.

(** *** Notions the properties are stated with *)

(** The recipients that pass the validation filter, and those that do
    not. *)
Definition validated (tokens : list string) : list string :=
  filter (isExpoPushToken env) tokens.

Definition malformed (tokens : list string) : list string :=
  filter (fun t => negb (isExpoPushToken env t)) tokens.

(** The tickets the transport hands back for [chunks] when the first of
    them is submitted at time [t]; a submission that throws hands back
    none. *)
Fixpoint collected (t : nat) (chunks : list (list Expo.Message)) : list Expo.Ticket :=
  match chunks with
  | [] => []
  | chunk :: rest =>
      match sendPushNotificationsAsync env t chunk with
      | Js.Normal ticketChunk => ticketChunk
      | Js.Thrown _ => []
      end ++ collected (S t) rest
  end.

(** The messages of the chunks whose submission throws. *)
Fixpoint raised (t : nat) (chunks : list (list Expo.Message)) : list Expo.Message :=
  match chunks with
  | [] => []
  | chunk :: rest =>
      match sendPushNotificationsAsync env t chunk with
      | Js.Normal _ => []
      | Js.Thrown _ => chunk
      end ++ raised (S t) rest
  end.

(** The transport contract: a submission that returns hands back one
    ticket per message. *)
Definition one_outcome_per_message : Prop :=
  forall t chunk ticketChunk,
    sendPushNotificationsAsync env t chunk = Js.Normal ticketChunk ->
    length ticketChunk = length chunk.

End Sender.

Definition isOk (ticket : Expo.Ticket) : bool := String.eqb (Expo.status ticket) "ok".

(** The tickets for which the counting pass reports a recipient as invalid. *)
Definition flagged (ticket : Expo.Ticket) : bool :=
  negb (isOk ticket) && Expo.detailsErrorIs ticket "DeviceNotRegistered".

End PushNotificationSender.

(** ** The game-invitation sender *)

Module GameInvitationSender.

Record InvitationData : Type := {
  targetUserId : string;
  inviterUserId : string;
  gameId : string;
  gameTitle : string;
  gameDate : string;
  gameTime : string;
  pitchName : string;
  pitchLocation : string
}.

(** [{ success: true }] or [{ success: false, error }]; [error] is [None]
    when the property is absent or [undefined]. *)
Record InvitationResult : Type := {
  success : bool;
  error : option string
}.

Section Sender.

Variable env : Env.

(** The [catch] of the source is never entered: [new Date] of an
    unparsable string and [toLocaleString] of an invalid date do not
    throw. *)
Definition formatDateTime (date time : string) : string :=
  date_toLocaleString env (date ++ "T" ++ time)%string.

Definition logInvitationNotification (userId gameId title message inviterId : string)
  : M unit :=
  try_catch
    (now <- clock ;;
     let record :=
       {| Notification.user_id := userId;
          Notification.type := "game_invitation";
          Notification.title := title;
          Notification.message := message;
          Notification.data :=
            [("game_id", gameId); ("invited_by", inviterId);
             ("sent_at", date_now env now 0); ("notification_type", "push")];
          Notification.status := "sent" |} in
     _ <- await (InsertNotifications [record])
            (fun t => insert_notifications env t [record]) ;;
     ret tt)
    (fun _ => ret tt).

Definition removeInvalidToken (userId : string) : M unit :=
  try_catch
    (_ <- await (UpdatePushTokenNull userId)
            (fun t => update_push_token_null env t userId) ;;
     ret tt)
    (fun _ => ret tt).

Definition notificationMessage (pushToken inviterName : string)
           (invitationData : InvitationData) : Expo.Message :=
  {| Expo.to := pushToken;
     Expo.sound := "notification_sound.wav";
     Expo.title := "⚽ Game Invitation";
     Expo.body :=
       (inviterName ++ " invited you to join a match at "
        ++ pitchName invitationData ++ " on "
        ++ formatDateTime (gameDate invitationData) (gameTime invitationData))%string;
     Expo.data :=
       [("screen", "GameDetails"); ("gameId", gameId invitationData);
        ("type", "game_invitation"); ("pitchName", pitchName invitationData);
        ("gameDate", gameDate invitationData); ("gameTime", gameTime invitationData);
        ("inviterName", inviterName); ("notificationType", "game_invitation")];
     Expo.priority := "high";
     Expo.badge := Some 1;
     Expo.channelId := Some "NL" |}.

Definition failure (reason : string) : InvitationResult :=
  {| success := false; error := Some reason |}.

(** What follows [const ticket = tickets[0]]: the row is logged first,
    then [ticket.status] is read, which throws when the transport handed
    back no ticket. *)
Definition processTicket (tickets : list Expo.Ticket) (title message : string)
           (invitationData : InvitationData) : M InvitationResult :=
  logInvitationNotification (targetUserId invitationData) (gameId invitationData)
    title message (inviterUserId invitationData) ;;;
  match tickets with
  | [] => throw (Js.TypeError "status")
  | ticket :: _ =>
      if String.eqb (Expo.status ticket) "error"
      then
        (if Expo.detailsErrorIs ticket "DeviceNotRegistered"
         then removeInvalidToken (targetUserId invitationData)
         else ret tt) ;;;
        ret {| success := false; error := Expo.message ticket |}
      else ret {| success := true; error := None |}
  end.

Definition sendGameInvitationNotification (invitationData : InvitationData)
  : M InvitationResult :=
  try_catch
    (target <- await (SelectUserProfile "id, push_token, full_name, email"
                        (targetUserId invitationData))
                 (fun t => select_user_profile env t "id, push_token, full_name, email"
                             (targetUserId invitationData)) ;;
     match Supabase.error target, Supabase.data target with
     | None, Some targetUser =>
         match UserProfile.push_token targetUser with
         | None => ret (failure "No push token")
         | Some pushToken =>
             if String.eqb pushToken "" then ret (failure "No push token")
             else if negb (isExpoPushToken env pushToken)
             then ret (failure "Invalid push token")
             else
               inviter <- await (SelectUserProfile "full_name, email"
                                   (inviterUserId invitationData))
                            (fun t => select_user_profile env t "full_name, email"
                                        (inviterUserId invitationData)) ;;
               match Supabase.error inviter, Supabase.data inviter with
               | None, Some inviterUser =>
                   let inviterName :=
                     Js.or_default
                       (Js.or_else (UserProfile.full_name inviterUser)
                                   (UserProfile.email inviterUser))
                       "Someone" in
                   let m := notificationMessage pushToken inviterName invitationData in
                   tickets <- await (SendPushNotificationsAsync [m])
                                (fun t => sendPushNotificationsAsync env t [m]) ;;
                   processTicket tickets (Expo.title m) (Expo.body m) invitationData
               | _, _ => ret (failure "Inviter not found")
               end
         end
     | _, _ => ret (failure "User not found")
     end)
    (fun error => ret {| success := false; error := Some (Js.message error) |}).

End Sender.

End GameInvitationSender.

(** ** The match-reminder sender *)

Module MatchReminderSender.

Section Sender.

Variable env : Env.

(** As for [formatDateTime], the [catch] of the source is never entered. *)
Definition formatMatchTime (date time : string) : string :=
  date_toLocaleString env (date ++ "T" ++ time)%string.

(** [participants.map(participant => ({...}))]; [k] counts the rows
    already built. *)
Fixpoint notificationRecords (participants : list Participant.t)
         (bookingId title message : string) (now k : nat) : list Notification.t :=
  match participants with
  | [] => []
  | participant :: rest =>
      {| Notification.user_id := Participant.user_id participant;
         Notification.type := "match_reminder";
         Notification.title := title;
         Notification.message := message;
         Notification.data :=
           [("booking_id", bookingId); ("reminder_type", "2_hour_reminder");
            ("sent_at", date_now env now k)];
         Notification.status := "sent" |}
      :: notificationRecords rest bookingId title message now (S k)
  end.

Definition logNotifications (participants : list Participant.t)
           (bookingId title message : string) : M unit :=
  try_catch
    (now <- clock ;;
     let records := notificationRecords participants bookingId title message now 0 in
     _ <- await (InsertNotifications records)
            (fun t => insert_notifications env t records) ;;
     ret tt)
    (fun _ => ret tt).

Definition markReminderSent (bookingId : string) : M unit :=
  try_catch
    (_ <- await (RpcMarkReminderSent bookingId)
            (fun t => rpc_mark_reminder_sent env t bookingId) ;;
     ret tt)
    (fun _ => ret tt).

Definition removeInvalidToken (userId : string) : M unit :=
  try_catch
    (_ <- await (UpdatePushTokenNull userId)
            (fun t => update_push_token_null env t userId) ;;
     ret tt)
    (fun _ => ret tt).

(** [for (let i = 0; i < tickets.length; i++)], entered at index [i] with
    the tickets from [i] on.  Both branches read [participant.email], which
    throws when [participants[i]] is [undefined]. *)
Fixpoint processTickets (tickets : list Expo.Ticket) (participants : list Participant.t)
         (i : nat) : M unit :=
  match tickets with
  | [] => ret tt
  | ticket :: rest =>
      match nth_error participants i with
      | None => throw (Js.TypeError "email")
      | Some participant =>
          (if String.eqb (Expo.status ticket) "error"
           then if Expo.detailsErrorIs ticket "DeviceNotRegistered"
                then removeInvalidToken (Participant.user_id participant)
                else ret tt
           else ret tt) ;;;
          processTickets rest participants (S i)
      end
  end.

(** [p => p.push_token && Expo.isExpoPushToken(p.push_token)] *)
Definition hasValidToken (p : Participant.t) : bool :=
  match Participant.push_token p with
  | Some pushToken =>
      negb (String.eqb pushToken "") && isExpoPushToken env pushToken
  | None => false
  end.

Definition title (match_ : Match.t) : string :=
  let matchTypeText :=
    if String.eqb (Match.match_type match_) "ranked"
    then "Ranked Match" else "Friendly Match" in
  ("⚽ " ++ matchTypeText ++ " Reminder")%string.

Definition matchTime (match_ : Match.t) : string :=
  formatMatchTime (Match.match_date match_) (Match.match_time match_).

Definition message (match_ : Match.t) : string :=
  ("Your match at " ++ Match.pitch_name match_ ++ " starts in 2 hours ("
   ++ matchTime match_ ++ "). Get ready!")%string.

Definition reminderMessage (match_ : Match.t) (participant : Participant.t)
  : Expo.Message :=
  {| Expo.to := match Participant.push_token participant with
                | Some pushToken => pushToken
                | None => ""
                end;
     Expo.sound := "notification_sound.wav";
     Expo.title := title match_;
     Expo.body := message match_;
     Expo.data :=
       [("screen", "GameDetails"); ("gameId", Match.booking_id match_);
        ("matchType", Match.match_type match_);
        ("pitchName", Match.pitch_name match_);
        ("matchTime", matchTime match_);
        ("notificationType", "match_reminder")];
     Expo.priority := "high";
     Expo.badge := Some 1;
     Expo.channelId := Some "NL" |}.

(** [for (const chunk of chunks)], as in [pushNotificationSender.js]. *)
Fixpoint sendChunks (chunks : list (list Expo.Message)) (tickets : list Expo.Ticket)
  : M (list Expo.Ticket) :=
  match chunks with
  | [] => ret tickets
  | chunk :: rest =>
      tickets' <- try_catch
                    (ticketChunk <- await (SendPushNotificationsAsync chunk)
                                      (fun t => sendPushNotificationsAsync env t chunk) ;;
                     ret (tickets ++ ticketChunk))
                    (fun _ => ret tickets) ;;
      sendChunks rest tickets'
  end.

(** The part of [processMatchReminder] that runs once at least one
    participant has a valid token. *)
Definition remind (match_ : Match.t) (validParticipants : list Participant.t) : M unit :=
  let messages := map (reminderMessage match_) validParticipants in
  let chunks := Expo.chunkPushNotifications messages in
  tickets <- sendChunks chunks [] ;;
  logNotifications validParticipants (Match.booking_id match_)
    (title match_) (message match_) ;;;
  markReminderSent (Match.booking_id match_) ;;;
  processTickets tickets validParticipants 0.

Definition processMatchReminder (match_ : Match.t) : M unit :=
  try_catch
    (response <- await (RpcGetMatchParticipants (Match.booking_id match_))
                   (fun t => rpc_get_match_participants env t (Match.booking_id match_)) ;;
     match Supabase.error response with
     | Some _ => ret tt
     | None =>
         match Supabase.data response with
         | None => markReminderSent (Match.booking_id match_)
         | Some participants =>
             if length participants =? 0
             then markReminderSent (Match.booking_id match_)
             else
               let validParticipants := filter hasValidToken participants in
               if length validParticipants =? 0
               then markReminderSent (Match.booking_id match_)
               else remind match_ validParticipants
         end
     end)
    (fun _ => ret tt).

End Sender.

End MatchReminderSender.

(** ** Concrete environments *)

Module Sample.

Definition noResponse {A : Type} : Supabase.Response A :=
  {| Supabase.data := None; Supabase.error := None |}.

(** An environment with the given transport; the store answers every call
    with an empty response. *)
Definition withTransport
           (transport : nat -> list Expo.Message -> Js.Completion (list Expo.Ticket))
  : Env :=
  {| isExpoPushToken := Expo.isExpoPushToken;
     sendPushNotificationsAsync := transport;
     rpc_get_match_participants := fun _ _ => Js.Normal noResponse;
     rpc_mark_reminder_sent := fun _ _ => Js.Normal noResponse;
     insert_notifications := fun _ _ => Js.Normal noResponse;
     update_push_token_null := fun _ _ => Js.Normal noResponse;
     select_user_profile := fun _ _ _ => Js.Normal noResponse;
     date_now := fun _ _ => "2024-01-01T16:00:00.000Z";
     date_toLocaleString := fun s => s |}.

Definition networkError : Js.Error := {| Js.message := "network request failed" |}.

(** The transport answers the call issued at time [k] with the [k]-th
    entry of [script], and throws once the script is exhausted. *)
Definition scripted (script : list (Js.Completion (list Expo.Ticket))) : Env :=
  withTransport (fun t _ => nth t script (Js.Thrown networkError)).

Definition deviceNotRegistered : Expo.Ticket :=
  Expo.ErrorTicket "The device is not registered"
    (Some {| Expo.error := Some "DeviceNotRegistered" |}).

Definition messageTooBig : Expo.Ticket :=
  Expo.ErrorTicket "The message is too big"
    (Some {| Expo.error := Some "MessageTooBig" |}).

Definition delivered : Expo.Ticket := Expo.SuccessTicket "ticket-id".

(** A well-formed token. *)
Definition token (name : string) : string := ("ExponentPushToken[" ++ name ++ "]")%string.

(** The provider's verdict on one message: the device called [stale] is no
    longer registered. *)
Definition outcomeFor (m : Expo.Message) : Expo.Ticket :=
  if String.eqb (Expo.to m) (token "stale") then deviceNotRegistered else delivered.

(** The transport throws for the call issued at time [k] and answers every
    other call in full, one ticket per message. *)
Definition failingAt (k : nat) : Env :=
  withTransport (fun t chunk =>
                   if t =? k then Js.Thrown networkError
                   else Js.Normal (map outcomeFor chunk)).

End Sample.

Module SampleInputs.

(** The store of [env] replaced by one that answers the participant query
    with [participants]. *)
Definition withParticipants (participants : list Participant.t) (env : Env) : Env :=
  {| isExpoPushToken := isExpoPushToken env;
     sendPushNotificationsAsync := sendPushNotificationsAsync env;
     rpc_get_match_participants :=
       fun _ _ => Js.Normal {| Supabase.data := Some participants;
                               Supabase.error := None |};
     rpc_mark_reminder_sent := rpc_mark_reminder_sent env;
     insert_notifications := insert_notifications env;
     update_push_token_null := update_push_token_null env;
     select_user_profile := select_user_profile env;
     date_now := date_now env;
     date_toLocaleString := date_toLocaleString env |}.

(** A store that knows every user, each with the token the transport calls
    [stale]. *)
Definition profile (userId : string) : UserProfile.t :=
  {| UserProfile.id := userId;
     UserProfile.push_token := Some (Sample.token "stale");
     UserProfile.full_name := None;
     UserProfile.email := Some (userId ++ "@example.com")%string |}.

Definition withProfiles (env : Env) : Env :=
  {| isExpoPushToken := isExpoPushToken env;
     sendPushNotificationsAsync := sendPushNotificationsAsync env;
     rpc_get_match_participants := rpc_get_match_participants env;
     rpc_mark_reminder_sent := rpc_mark_reminder_sent env;
     insert_notifications := insert_notifications env;
     update_push_token_null := update_push_token_null env;
     select_user_profile :=
       fun _ _ userId => Js.Normal {| Supabase.data := Some (profile userId);
                                      Supabase.error := None |};
     date_now := date_now env;
     date_toLocaleString := date_toLocaleString env |}.

Definition invitation : GameInvitationSender.InvitationData :=
  {| GameInvitationSender.targetUserId := "test-user-id";
     GameInvitationSender.inviterUserId := "test-inviter-id";
     GameInvitationSender.gameId := "test-game-id";
     GameInvitationSender.gameTitle := "Test Football Match";
     GameInvitationSender.gameDate := "2024-01-01";
     GameInvitationSender.gameTime := "18:00";
     GameInvitationSender.pitchName := "Test Pitch";
     GameInvitationSender.pitchLocation := "Test Location" |}.

Definition friendly : Match.t :=
  {| Match.booking_id := "booking-1";
     Match.pitch_name := "Pitch 5";
     Match.match_date := "2024-01-01";
     Match.match_time := "18:00";
     Match.match_type := "friendly" |}.

Definition participant (userId : string) (pushToken : option string) : Participant.t :=
  {| Participant.user_id := userId;
     Participant.push_token := pushToken;
     Participant.email := (userId ++ "@example.com")%string |}.

(** A hundred recipients that fill the first batch, and a stale one that
    ends up alone in the second. *)
Definition tokens101 : list string :=
  repeat (Sample.token "a") 100 ++ [Sample.token "stale"].

Definition tokens250 : list string := repeat (Sample.token "a") 250.

End SampleInputs.

(** ** Arithmetic used in the statements *)

(** The least [k] with [n <= k * d], for [0 < d]. *)
Definition ceilDiv (n d : nat) : nat := (n + (d - 1)) / d.

(** ** What a trace holds, by kind of call *)

(** The rows handed to [notifications.insert]. *)
Definition rowsInserted (w : World) : list Notification.t :=
  flat_map (fun c => match c with InsertNotifications records => records | _ => [] end) w.

(** The users whose [push_token] was set to [null]. *)
Definition tokensCleared (w : World) : list string :=
  flat_map (fun c => match c with UpdatePushTokenNull userId => [userId] | _ => [] end) w.

(** The bookings whose participants were queried. *)
Definition participantQueries (w : World) : list string :=
  flat_map (fun c => match c with RpcGetMatchParticipants booking => [booking] | _ => [] end) w.

(** The users looked up as the target of an invitation, which is the only
    lookup that selects [push_token]. *)
Definition targetLookups (w : World) : list string :=
  flat_map (fun c => match c with
                     | SelectUserProfile columns userId =>
                         if String.eqb columns "id, push_token, full_name, email"
                         then [userId] else []
                     | _ => []
                     end) w.

(** [ticket.status === 'error' && ticket.details &&
    ticket.details.error === 'DeviceNotRegistered'], the test under which the
    invitation and the reminder senders clear a token. *)
Definition isStale (ticket : Expo.Ticket) : bool :=
  String.eqb (Expo.status ticket) "error"
  && Expo.detailsErrorIs ticket "DeviceNotRegistered".

(** The same test on [tickets[0]], when there is one. *)
Definition firstTicketStale (tickets : list Expo.Ticket) : bool :=
  match tickets with
  | ticket :: _ => isStale ticket
  | [] => false
  end.

(** ** Objects with string values *)

Module JsObject.

(** [o[key]] *)
Fixpoint get (key : string) (o : list (string * string)) : option string :=
  match o with
  | [] => None
  | (k, v) :: rest => if String.eqb k key then Some v else get key rest
  end.

(** [{ ...o, key: value }]: an own property keeps its place and takes the new
    value; a new property comes last. *)
Fixpoint set (key value : string) (o : list (string * string)) : list (string * string) :=
  match o with
  | [] => [(key, value)]
  | (k, v) :: rest =>
      if String.eqb k key then (k, value) :: rest else (k, v) :: set key value rest
  end.

End JsObject.

(** ** pushNotificationSender.js: the broadcast entry point *)

Module Broadcast.

(** [{ ...data, type: 'broadcast', screen: 'More' }] *)
Definition broadcastData (data : Expo.Payload) : Expo.Payload :=
  JsObject.set "screen" "More" (JsObject.set "type" "broadcast" data).

Definition sendBroadcastNotification (env : Env) (title message : string)
           (userTokens : list string) (data : Expo.Payload)
  : M PushNotificationSender.DispatchResult :=
  result <- PushNotificationSender.sendPushNotifications env userTokens title message
              (broadcastData data) ;;
  ret result.

End Broadcast.

(** ** The game-invitation sender: bulk invitations *)

Module BulkGameInvitations.

Record BulkInvitationData : Type := {
  targetUserIds : list string;
  inviterUserId : string;
  gameId : string;
  gameTitle : string;
  gameDate : string;
  gameTime : string;
  pitchName : string;
  pitchLocation : string
}.

(** The [results] object. *)
Record BulkResult : Type := {
  success : nat;
  failed : nat;
  errors : list string
}.

(** [`${value}`] of a string that may be [undefined]. *)
Definition interpolate (value : option string) : string :=
  match value with
  | Some s => s
  | None => "undefined"
  end.

Section Sender.

Variable env : Env.

Definition invitationFor (userId : string) (bulkInvitationData : BulkInvitationData)
  : GameInvitationSender.InvitationData :=
  {| GameInvitationSender.targetUserId := userId;
     GameInvitationSender.inviterUserId := inviterUserId bulkInvitationData;
     GameInvitationSender.gameId := gameId bulkInvitationData;
     GameInvitationSender.gameTitle := gameTitle bulkInvitationData;
     GameInvitationSender.gameDate := gameDate bulkInvitationData;
     GameInvitationSender.gameTime := gameTime bulkInvitationData;
     GameInvitationSender.pitchName := pitchName bulkInvitationData;
     GameInvitationSender.pitchLocation := pitchLocation bulkInvitationData |}.

Definition countFailure (userId reason : string) (results : BulkResult) : BulkResult :=
  {| success := success results;
     failed := S (failed results);
     errors := errors results ++ [("User " ++ userId ++ ": " ++ reason)%string] |}.

(** [for (const userId of targetUserIds)], with its own [try]/[catch]. *)
Fixpoint inviteEach (userIds : list string) (bulkInvitationData : BulkInvitationData)
         (results : BulkResult) : M BulkResult :=
  match userIds with
  | [] => ret results
  | userId :: rest =>
      results' <- try_catch
                    (result <- GameInvitationSender.sendGameInvitationNotification env
                                 (invitationFor userId bulkInvitationData) ;;
                     if GameInvitationSender.success result
                     then ret {| success := S (success results);
                                 failed := failed results;
                                 errors := errors results |}
                     else ret (countFailure userId
                                 (interpolate (GameInvitationSender.error result)) results))
                    (fun error => ret (countFailure userId (Js.message error) results)) ;;
      inviteEach rest bulkInvitationData results'
  end.

Definition sendBulkGameInvitations (bulkInvitationData : BulkInvitationData) : M BulkResult :=
  try_catch
    (inviteEach (targetUserIds bulkInvitationData) bulkInvitationData
       {| success := 0; failed := 0; errors := [] |})
    (fun error => ret {| success := 0; failed := 1; errors := [Js.message error] |}).

End Sender.

End BulkGameInvitations.

(** ** The match-reminder sender: one cycle *)

Module MatchReminderCycle.

(** The completion of an awaited promise whose call has no entry in [Call];
    it leaves the trace as it is. *)
Definition resolved {A : Type} (answer : Js.Completion A) : M A := fun w => (answer, w).

Section Sender.

Variable env : Env.

(** [for (const match of matches)] *)
Fixpoint processEach (matches : list Match.t) : M unit :=
  match matches with
  | [] => ret tt
  | match_ :: rest =>
      MatchReminderSender.processMatchReminder env match_ ;;;
      processEach rest
  end.

(** [processMatchReminders]; [answer] is what the
    [get_matches_needing_reminders] query completes with. *)
Definition processMatchReminders
           (answer : Js.Completion (Supabase.Response (list Match.t))) : M unit :=
  try_catch
    (response <- resolved answer ;;
     match Supabase.error response with
     | Some _ => ret tt
     | None =>
         match Supabase.data response with
         | None => ret tt
         | Some matches =>
             if length matches =? 0 then ret tt else processEach matches
         end
     end)
    (fun _ => ret tt).

End Sender.

(** The matches a cycle goes through: those the query answered with, when it
    answered without an error. *)
Definition matchesToProcess (answer : Js.Completion (Supabase.Response (list Match.t)))
  : list Match.t :=
  match answer with
  | Js.Normal response =>
      match Supabase.error response, Supabase.data response with
      | None, Some matches => matches
      | _, _ => []
      end
  | Js.Thrown _ => []
  end.

End MatchReminderCycle.

(** ** Further concrete inputs *)

Module SampleCases.

(** A store that answers the participant query with an error. *)
Definition participantsUnavailable (env : Env) : Env :=
  {| isExpoPushToken := isExpoPushToken env;
     sendPushNotificationsAsync := sendPushNotificationsAsync env;
     rpc_get_match_participants :=
       fun _ _ => Js.Normal {| Supabase.data := None;
                               Supabase.error := Some "connection refused" |};
     rpc_mark_reminder_sent := rpc_mark_reminder_sent env;
     insert_notifications := insert_notifications env;
     update_push_token_null := update_push_token_null env;
     select_user_profile := select_user_profile env;
     date_now := date_now env;
     date_toLocaleString := date_toLocaleString env |}.

Definition twoParticipants : list Participant.t :=
  [SampleInputs.participant "u1" (Some (Sample.token "a"));
   SampleInputs.participant "u2" (Some (Sample.token "stale"))].

End SampleCases.

(** * Properties *)

(** ** Proof steps that recur *)

(** Close a branch on which an invitation stops after the lookup of the
    target, or after the two lookups. *)
Ltac only_target_lookup :=
  eexists; eexists; split; [reflexivity | left; reflexivity].

Ltac both_lookups :=
  eexists; eexists; split;
  [rewrite <- app_assoc; reflexivity | right; left; reflexivity].

(** Turns the boolean tests recorded on a branch into equations. *)
Ltac eqb_to_eq :=
  repeat match goal with
         | H : String.eqb _ _ = true |- _ => apply String.eqb_eq in H
         | H : String.eqb _ _ = false |- _ => apply String.eqb_neq in H
         | H : negb _ = true |- _ => apply negb_true_iff in H
         | H : negb _ = false |- _ => apply negb_false_iff in H
         end.

(** Closes a branch on which the invitation fails: the call returns a failure
    with a reason, and the facts collected on the way contradict the condition
    for success. *)
Ltac invitation_fails :=
  eexists; eexists; split; [reflexivity|]; simpl; split;
  [intros _; eexists; reflexivity
  |split; [discriminate
          |intros (? & ? & ? & ? & ? & ? & ? & ? & ? & ? & ? & ? & ? & ? & ? & ? & ? & ?);
           eqb_to_eq; congruence]].

(** ** Running computations *)

Lemma length_snoc {A : Type} (w : list A) (c : A) : length (w ++ [c]) = S (length w).
Proof. rewrite length_app. simpl. lia. Qed.

(** A call whose failure is caught and whose answer is dropped always
    completes normally, and leaves exactly that call in the trace. *)
Lemma guarded_call_run {A : Type} (c : Call) (answer : nat -> Js.Completion A) (w : World) :
  try_catch (_ <- await c answer ;; ret tt) (fun _ => ret tt) w = (Js.Normal tt, w ++ [c]).
Proof.
  unfold try_catch, bind, await, ret.
  destruct (answer (length w)); reflexivity.
Qed.

(** ** Chunking *)

Section Chunking.

Variable limit : nat.
Hypothesis limit_pos : 0 < limit.

Lemma chunkLoop_concat messages : forall chunk count chunks,
  count = length chunk ->
  concat (Expo.chunkLoop limit messages chunk count chunks)
  = concat chunks ++ chunk ++ messages.
Proof using Type.
  induction messages as [|m rest IH]; intros chunk count chunks Hcount; simpl.
  - destruct chunk as [|x chunk]; subst count; simpl.
    + now rewrite app_nil_r.
    + rewrite concat_app. simpl. now rewrite !app_nil_r.
  - destruct (limit <=? S count).
    + rewrite IH by reflexivity.
      rewrite concat_app. simpl. rewrite app_nil_r, <- !app_assoc. reflexivity.
    + rewrite IH by (subst count; now rewrite length_snoc).
      rewrite <- !app_assoc. reflexivity.
Qed.

Lemma chunkLoop_sizes messages : forall chunk count chunks,
  count = length chunk ->
  map (@length _) (Expo.chunkLoop limit messages chunk count chunks)
  = map (@length _) chunks ++ Expo.chunkSizes limit (length messages) count.
Proof using Type.
  induction messages as [|m rest IH]; intros chunk count chunks Hcount; simpl.
  - destruct (count =? 0).
    + now rewrite app_nil_r.
    + rewrite map_app. simpl. now subst count.
  - destruct (limit <=? S count).
    + rewrite IH by reflexivity.
      rewrite map_app. simpl. rewrite length_snoc, <- app_assoc. simpl.
      now subst count.
    + apply IH. subst count. now rewrite length_snoc.
Qed.

Lemma chunkSizes_bounded n : forall count,
  count < limit -> Forall (fun size => size <= limit) (Expo.chunkSizes limit n count).
Proof using limit_pos.
  induction n as [|n IH]; intros count Hcount; simpl.
  - destruct (count =? 0); constructor; [lia | constructor].
  - destruct (Nat.leb_spec limit (S count)).
    + constructor; [lia | apply IH; lia].
    + apply IH; lia.
Qed.

Lemma chunkSizes_length n : forall count,
  count < limit ->
  length (Expo.chunkSizes limit n count) = (count + n + (limit - 1)) / limit.
Proof using limit_pos.
  induction n as [|n IH]; intros count Hcount; simpl.
  - destruct (Nat.eqb_spec count 0) as [->|Hne]; simpl.
    + symmetry. apply Nat.div_small. lia.
    + apply (Nat.div_unique _ _ 1 (count - 1)); lia.
  - destruct (Nat.leb_spec limit (S count)).
    + simpl. rewrite IH by lia.
      replace (count + S n + (limit - 1)) with (1 * limit + (0 + n + (limit - 1))) by lia.
      rewrite Nat.div_add_l by lia. reflexivity.
    + rewrite IH by lia. f_equal. lia.
Qed.

End Chunking.

Lemma ceilDiv_spec n d :
  0 < d -> n <= ceilDiv n d * d /\ (0 < n -> (ceilDiv n d - 1) * d < n).
Proof.
  intros Hd. unfold ceilDiv.
  pose proof (Nat.div_mod_eq (n + (d - 1)) d) as E.
  pose proof (Nat.mod_upper_bound (n + (d - 1)) d ltac:(lia)) as B.
  remember ((n + (d - 1)) / d) as q eqn:Q.
  remember ((n + (d - 1)) mod d) as r eqn:R.
  rewrite (Nat.mul_comm d q) in E.
  split; [lia|].
  intros Hn. destruct q as [|q]; simpl in *; lia.
Qed.

(** ** pushNotificationSender.js: the three passes *)

Section SenderFacts.

Import PushNotificationSender.

Variable env : Env.

Lemma buildMessages_spec tokens title body data : forall messages,
  buildMessages env tokens title body data messages
  = messages ++ map (fun t => message t title body data) (validated env tokens).
Proof.
  induction tokens as [|t rest IH]; intros messages; simpl.
  - now rewrite app_nil_r.
  - destruct (isExpoPushToken env t); simpl.
    + rewrite IH, <- app_assoc. reflexivity.
    + apply IH.
Qed.

Lemma buildMessages_recipients tokens title body data :
  map Expo.to (buildMessages env tokens title body data []) = validated env tokens.
Proof.
  rewrite buildMessages_spec. simpl. rewrite map_map. simpl. apply map_id.
Qed.

Lemma buildMessages_length tokens title body data :
  length (buildMessages env tokens title body data []) = length (validated env tokens).
Proof. rewrite <- (buildMessages_recipients tokens title body data). now rewrite length_map. Qed.

Lemma validated_malformed_length tokens :
  length (validated env tokens) + length (malformed env tokens) = length tokens.
Proof.
  induction tokens as [|t rest IH]; simpl; [reflexivity|].
  destruct (isExpoPushToken env t); simpl; lia.
Qed.

Lemma sendChunks_run chunks : forall tickets w,
  sendChunks env chunks tickets w
  = (Js.Normal (tickets ++ collected env (length w) chunks),
     w ++ map SendPushNotificationsAsync chunks).
Proof.
  induction chunks as [|chunk rest IH]; intros tickets w; simpl.
  - unfold ret. now rewrite !app_nil_r.
  - unfold bind, try_catch, await, ret.
    destruct (sendPushNotificationsAsync env (length w) chunk) as [ticketChunk|e];
      rewrite IH, length_snoc, <- !app_assoc; reflexivity.
Qed.

Lemma collected_app chunks1 : forall t chunks2,
  collected env t (chunks1 ++ chunks2)
  = collected env t chunks1 ++ collected env (t + length chunks1) chunks2.
Proof.
  induction chunks1 as [|c rest IH]; intros t chunks2; simpl.
  - now rewrite Nat.add_0_r.
  - rewrite IH, <- app_assoc.
    now replace (S t + length rest) with (t + S (length rest)) by lia.
Qed.

Lemma collected_raised_length chunks : forall t,
  one_outcome_per_message env ->
  length (collected env t chunks) + length (raised env t chunks) = length (concat chunks).
Proof.
  intros t Hone. revert t.
  induction chunks as [|c rest IH]; intros t; simpl; [reflexivity|].
  rewrite !length_app. specialize (IH (S t)).
  destruct (sendPushNotificationsAsync env t c) as [ticketChunk|e] eqn:E; simpl.
  - rewrite (Hone _ _ _ E). lia.
  - lia.
Qed.

Lemma countTicket_counts tokens ticket index c :
  successCount (countTicket tokens ticket index c)
  = successCount c + (if isOk ticket then 1 else 0)
  /\ failureCount (countTicket tokens ticket index c)
     = failureCount c + (if isOk ticket then 0 else 1).
Proof.
  unfold countTicket, isOk.
  destruct (String.eqb (Expo.status ticket) "ok"); simpl; lia.
Qed.

Lemma countResults_counts tokens tickets : forall index c,
  successCount (countResults tokens tickets index c)
  = successCount c + length (filter isOk tickets)
  /\ failureCount (countResults tokens tickets index c)
     = failureCount c + length (filter (fun t => negb (isOk t)) tickets).
Proof.
  induction tickets as [|ticket rest IH]; intros index c; simpl; [lia|].
  destruct (IH (S index) (countTicket tokens ticket index c)) as [-> ->].
  destruct (countTicket_counts tokens ticket index c) as [-> ->].
  destruct (isOk ticket); simpl; lia.
Qed.

Lemma filter_partition_length {A : Type} (f : A -> bool) (l : list A) :
  length (filter f l) + length (filter (fun x => negb (f x)) l) = length l.
Proof.
  induction l as [|x l IH]; simpl; [reflexivity|].
  destruct (f x); simpl; lia.
Qed.

(** The whole call, in one equation: every chunk is submitted, in order; the
    tickets are those of the submissions that returned; the counters are
    those of the counting pass over them. *)
Lemma sendPushNotifications_run tokens title body data w :
  let chunks := Expo.chunkPushNotifications (buildMessages env tokens title body data []) in
  let tickets := collected env (length w) chunks in
  let c := countResults tokens tickets 0
             {| successCount := 0; failureCount := 0; invalidTokensAcc := [] |} in
  sendPushNotifications env tokens title body data w
  = (Js.Normal {| success := successCount c;
                  failed := failureCount c;
                  total := length tokens;
                  invalidTokens := invalidTokensAcc c;
                  tickets := tickets |},
     w ++ map SendPushNotificationsAsync chunks).
Proof.
  unfold sendPushNotifications, bind. rewrite sendChunks_run. reflexivity.
Qed.

Lemma chunkPushNotifications_concat messages :
  concat (Expo.chunkPushNotifications messages) = messages.
Proof.
  unfold Expo.chunkPushNotifications.
  now rewrite chunkLoop_concat.
Qed.

(** As long as there are no more tickets than tokens, the counting pass
    reports the token found at the position of each flagged ticket. *)
Lemma countResults_positional tickets : forall pre tokens c,
  length tickets <= length tokens ->
  invalidTokensAcc (countResults (pre ++ tokens) tickets (length pre) c)
  = invalidTokensAcc c
    ++ map (fun p => Some (fst p))
         (filter (fun p => flagged (snd p)) (combine tokens tickets)).
Proof.
  induction tickets as [|ticket rest IH]; intros pre tokens c Hlen.
  - destruct tokens; simpl; now rewrite app_nil_r.
  - destruct tokens as [|token tokens]; simpl in Hlen; [lia|].
    assert (Hhere : nth_error (pre ++ token :: tokens) (length pre) = Some token).
    { rewrite nth_error_app2, Nat.sub_diag by lia. reflexivity. }
    simpl countResults.
    set (c' := countTicket (pre ++ token :: tokens) ticket (length pre) c).
    replace (pre ++ token :: tokens) with ((pre ++ [token]) ++ tokens)
      by (now rewrite <- app_assoc).
    rewrite <- (length_snoc pre token), IH by lia.
    unfold c', countTicket, flagged, isOk. rewrite Hhere. simpl.
    destruct (String.eqb (Expo.status ticket) "ok"); simpl; [reflexivity|].
    destruct (Expo.detailsErrorIs ticket "DeviceNotRegistered"); simpl;
      [now rewrite <- app_assoc | reflexivity].
Qed.

(** Where the attribution is right: with no malformed token in the input and
    no batch whose submission throws, every ticket sits at the position of
    its recipient in [tokens], and the recipients reported as invalid are
    exactly those whose own ticket is flagged. *)
Lemma attribution_without_malformed_or_raised tokens title body data w :
  one_outcome_per_message env ->
  malformed env tokens = [] ->
  raised env (length w)
    (Expo.chunkPushNotifications (buildMessages env tokens title body data [])) = [] ->
  exists r w',
    sendPushNotifications env tokens title body data w = (Js.Normal r, w')
    /\ length (tickets r) = length tokens
    /\ invalidTokens r
       = map (fun p => Some (fst p))
           (filter (fun p => flagged (snd p)) (combine tokens (tickets r))).
Proof.
  intros Hone Hmalformed Hraised. rewrite sendPushNotifications_run.
  eexists. eexists. split; [reflexivity|]. simpl.
  set (chunks := Expo.chunkPushNotifications (buildMessages env tokens title body data [])).
  pose proof (collected_raised_length chunks (length w) Hone) as Q.
  unfold chunks in Q at 3.
  rewrite chunkPushNotifications_concat, buildMessages_length in Q.
  fold chunks in Hraised. rewrite Hraised in Q.
  pose proof (validated_malformed_length tokens) as P. rewrite Hmalformed in P.
  simpl in P, Q.
  assert (Hlen : length (collected env (length w) chunks) = length tokens) by lia.
  split; [exact Hlen|].
  apply (countResults_positional (collected env (length w) chunks) [] tokens). lia.
Qed.

End SenderFacts.

Lemma failingAt_one_outcome_per_message k :
  PushNotificationSender.one_outcome_per_message (Sample.failingAt k).
Proof.
  intros t chunk ticketChunk. simpl.
  destruct (t =? k); [discriminate|].
  intros [= <-]. apply length_map.
Qed.

(** ** pushNotificationSender.js: the dispatch result *)

Import PushNotificationSender.

(** C1, as stated, fails.  With one malformed and one well-formed token and a
    transport that throws, [total] is 2: it is not the number of validated
    recipients (1), it does not add up with the skipped ones to the length of
    the input, and [success + failed] is 0, neither [total] nor the number of
    validated recipients. *)
Lemma count_identities_counterexample :
  let env := Sample.scripted [] in
  let tokens := ["not-a-token"; Sample.token "a"] in
  exists r w,
    sendPushNotifications env tokens "title" "body" [] [] = (Js.Normal r, w)
    /\ length (validated env tokens) = 1
    /\ total r + length (malformed env tokens) <> length tokens
    /\ success r + failed r <> total r
    /\ success r + failed r <> length (validated env tokens)
    /\ total r <> length (validated env tokens).
Proof.
  eexists. eexists. split; [reflexivity|].
  vm_compute. repeat split; discriminate.
Qed.

(** C1, amended.  For every list of recipient tokens, every message and every
    transport that hands back one outcome per submitted message whenever it
    returns: the call returns a result whose [total] is the length of the
    input, which is the number of validated recipients plus the number of
    malformed ones; [success + failed] is the number of tickets collected; and
    [success + failed] plus the number of recipients in batches whose
    submission threw is the number of validated recipients. *)
Theorem sendPushNotifications_count_identities env tokens title body data w :
  one_outcome_per_message env ->
  exists r w',
    sendPushNotifications env tokens title body data w = (Js.Normal r, w')
    /\ total r = length tokens
    /\ length (validated env tokens) + length (malformed env tokens) = total r
    /\ success r + failed r = length (tickets r)
    /\ success r + failed r
       + length (raised env (length w)
                   (Expo.chunkPushNotifications (buildMessages env tokens title body data [])))
       = length (validated env tokens).
Proof.
  intros Hone. rewrite sendPushNotifications_run.
  eexists. eexists. split; [reflexivity|]. simpl.
  set (chunks := Expo.chunkPushNotifications (buildMessages env tokens title body data [])).
  destruct (countResults_counts tokens (collected env (length w) chunks) 0
              {| successCount := 0; failureCount := 0; invalidTokensAcc := [] |})
    as [-> ->]. simpl.
  pose proof (filter_partition_length isOk (collected env (length w) chunks)) as P.
  pose proof (collected_raised_length env chunks (length w) Hone) as Q.
  unfold chunks in Q at 3. rewrite chunkPushNotifications_concat, buildMessages_length in Q.
  repeat split; [apply validated_malformed_length | lia | lia].
Qed.

Lemma sendPushNotifications_count_identities_witness :
  let env := Sample.failingAt 7 in
  let tokens := ["not-a-token"; Sample.token "a"; Sample.token "stale"] in
  one_outcome_per_message env
  /\ exists r w',
       sendPushNotifications env tokens "title" "body" [] [] = (Js.Normal r, w')
       /\ total r = 3
       /\ length (validated env tokens) + length (malformed env tokens) = total r
       /\ success r + failed r = length (tickets r)
       /\ success r + failed r
          + length (raised env 0
                      (Expo.chunkPushNotifications
                         (buildMessages env tokens "title" "body" [] [])))
          = length (validated env tokens).
Proof.
  split.
  - apply failingAt_one_outcome_per_message.
  - apply (sendPushNotifications_count_identities (Sample.failingAt 7)
             ["not-a-token"; Sample.token "a"; Sample.token "stale"] "title" "body" [] []).
    apply failingAt_one_outcome_per_message.
Defined.

(** C2, on the failing input.  The input holds a malformed token followed by a
    well-formed one; the only recipient submitted is the well-formed one and
    its outcome is [DeviceNotRegistered]; the counting pass reads
    [tokens[index]] in the unfiltered input and attributes the outcome to the
    malformed token at position 0, not to the recipient it was submitted
    for. *)
Theorem outcome_attributed_to_unfiltered_position :
  let env := Sample.scripted [Js.Normal [Sample.deviceNotRegistered]] in
  let tokens := ["not-a-token"; Sample.token "a"] in
  exists r w,
    sendPushNotifications env tokens "title" "body" [] [] = (Js.Normal r, w)
    /\ map (map Expo.to) (submissions w) = [[Sample.token "a"]]
    /\ tickets r = [Sample.deviceNotRegistered]
    /\ invalidTokens r = [Some "not-a-token"]
    /\ ~ In (Some (Sample.token "a")) (invalidTokens r).
Proof.
  eexists. eexists. split; [reflexivity|].
  vm_compute. repeat split.
  intros [H|[]]. discriminate.
Qed.

(** C3, as stated, fails.  One well-formed token, and a transport that throws
    for the only batch: the recipient of that batch is not counted as failed
    ([failed] is 0), and no outcome at all is recorded for it. *)
Lemma raised_batch_counterexample :
  let env := Sample.scripted [] in
  let tokens := [Sample.token "a"] in
  exists r w,
    sendPushNotifications env tokens "title" "body" [] [] = (Js.Normal r, w)
    /\ map Expo.to (raised env 0 (submissions w)) = [Sample.token "a"]
    /\ failed r <> length (raised env 0 (submissions w))
    /\ failed r = 0
    /\ tickets r = [].
Proof.
  eexists. eexists. split; [reflexivity|].
  vm_compute. repeat split. discriminate.
Qed.

(** C3, amended.  When the transport throws for one batch, the failure is
    caught and the remaining batches are still submitted, in order; no outcome
    is recorded for the recipients of the batch that threw, so that they are
    counted neither as delivered nor as failed; the tickets of the result are
    those of the other batches, and [success] and [failed] count the [ok] and
    the other tickets among them. *)
Theorem raising_batch_is_isolated env tokens title body data w before chunk after e :
  Expo.chunkPushNotifications (buildMessages env tokens title body data [])
  = before ++ chunk :: after ->
  sendPushNotificationsAsync env (length w + length before) chunk = Js.Thrown e ->
  exists r,
    sendPushNotifications env tokens title body data w
    = (Js.Normal r, w ++ map SendPushNotificationsAsync (before ++ chunk :: after))
    /\ tickets r
       = collected env (length w) before
         ++ collected env (length w + length before + 1) after
    /\ success r = length (filter isOk (tickets r))
    /\ failed r = length (filter (fun t => negb (isOk t)) (tickets r)).
Proof.
  intros Hchunks Hthrown. rewrite sendPushNotifications_run, Hchunks.
  eexists. split; [reflexivity|]. simpl.
  destruct (countResults_counts tokens
              (collected env (length w) (before ++ chunk :: after)) 0
              {| successCount := 0; failureCount := 0; invalidTokensAcc := [] |})
    as [-> ->]. simpl.
  repeat split.
  rewrite collected_app. simpl. rewrite Hthrown. simpl.
  now replace (S (length w + length before)) with (length w + length before + 1) by lia.
Qed.

Lemma raising_batch_is_isolated_witness :
  let env := Sample.failingAt 0 in
  let m := fun t => message t "title" "body" [] in
  let chunk := map m (repeat (Sample.token "a") 100) in
  let after := [[m (Sample.token "stale")]] in
  Expo.chunkPushNotifications (buildMessages env SampleInputs.tokens101 "title" "body" [] [])
  = [] ++ chunk :: after
  /\ sendPushNotificationsAsync env (length (@nil Call) + length (@nil (list Expo.Message))) chunk
     = Js.Thrown Sample.networkError
  /\ exists r,
       sendPushNotifications env SampleInputs.tokens101 "title" "body" [] []
       = (Js.Normal r, [] ++ map SendPushNotificationsAsync ([] ++ chunk :: after))
       /\ tickets r = collected env 0 [] ++ collected env 1 after
       /\ success r = length (filter isOk (tickets r))
       /\ failed r = length (filter (fun t => negb (isOk t)) (tickets r)).
Proof.
  split; [reflexivity|]. split; [reflexivity|].
  apply (raising_batch_is_isolated (Sample.failingAt 0) SampleInputs.tokens101
           "title" "body" [] [] [] _ _ Sample.networkError); reflexivity.
Defined.

(** C4, on the failing input.  The malformed token [garbage] is never
    submitted, yet it ends up in [invalidTokens]: the outcome of the second
    submitted recipient is looked up at position 1 of the unfiltered input. *)
Theorem malformed_token_reported_invalid :
  let env := Sample.scripted [Js.Normal [Sample.delivered; Sample.deviceNotRegistered]] in
  let tokens := [Sample.token "a"; "garbage"; Sample.token "b"] in
  exists r w,
    sendPushNotifications env tokens "title" "body" [] [] = (Js.Normal r, w)
    /\ isExpoPushToken env "garbage" = false
    /\ map (map Expo.to) (submissions w) = [[Sample.token "a"; Sample.token "b"]]
    /\ In (Some "garbage") (invalidTokens r).
Proof.
  eexists. eexists. split; [reflexivity|].
  vm_compute. repeat split. now left.
Qed.

(** C5, on the failing input.  Recipient [a] is answered [MessageTooBig] and
    recipient [b] is answered [DeviceNotRegistered]; because a malformed token
    precedes them in the input, [a] is the one reported in [invalidTokens] and
    [b] is not. *)
Theorem wrong_recipient_flagged_for_removal :
  let env := Sample.scripted [Js.Normal [Sample.messageTooBig; Sample.deviceNotRegistered]] in
  let tokens := ["garbage"; Sample.token "a"; Sample.token "b"] in
  exists r w,
    sendPushNotifications env tokens "title" "body" [] [] = (Js.Normal r, w)
    /\ map (map Expo.to) (submissions w) = [[Sample.token "a"; Sample.token "b"]]
    /\ tickets r = [Sample.messageTooBig; Sample.deviceNotRegistered]
    /\ failed r = 2
    /\ invalidTokens r = [Some (Sample.token "a")]
    /\ ~ In (Some (Sample.token "b")) (invalidTokens r).
Proof.
  eexists. eexists. split; [reflexivity|].
  vm_compute. repeat split.
  intros [H|[]]. discriminate.
Qed.

(** C6.  For every input list, message and behaviour of the transport,
    throwing submissions included, [sendPushNotifications] completes normally
    with a result: nothing is thrown out of the call. *)
Theorem sendPushNotifications_never_throws env tokens title body data w :
  exists r w', sendPushNotifications env tokens title body data w = (Js.Normal r, w').
Proof.
  rewrite sendPushNotifications_run. eexists. eexists. reflexivity.
Qed.

(** C7.  When the number [N] of validated recipients exceeds the chunk size,
    the submission calls are exactly [ceilDiv N chunkSize] many, each of at
    most [chunkSize] messages; put end to end they address the validated
    recipients in their original order; and 250 recipients give three calls
    of sizes 100, 100 and 50. *)
Theorem submissions_are_bounded_contiguous_chunks env tokens title body data w :
  Expo.pushNotificationChunkSizeLimit < length (validated env tokens) ->
  exists r calls,
    sendPushNotifications env tokens title body data w
    = (Js.Normal r, w ++ map SendPushNotificationsAsync calls)
    /\ length calls
       = ceilDiv (length (validated env tokens)) Expo.pushNotificationChunkSizeLimit
    /\ Forall (fun chunk => length chunk <= Expo.pushNotificationChunkSizeLimit) calls
    /\ map Expo.to (concat calls) = validated env tokens
    /\ (length (validated env tokens) = 250 -> map (@length _) calls = [100; 100; 50]).
Proof.
  intros _. rewrite sendPushNotifications_run.
  eexists. eexists. split; [reflexivity|].
  set (messages := buildMessages env tokens title body data []).
  assert (Hsizes : map (@length _) (Expo.chunkPushNotifications messages)
                   = Expo.chunkSizes Expo.pushNotificationChunkSizeLimit
                       (length (validated env tokens)) 0).
  { unfold Expo.chunkPushNotifications.
    rewrite chunkLoop_sizes by reflexivity. simpl.
    unfold messages. now rewrite buildMessages_length. }
  assert (Hpos : 0 < Expo.pushNotificationChunkSizeLimit)
    by (unfold Expo.pushNotificationChunkSizeLimit; lia).
  repeat split.
  - rewrite <- (length_map (@length _)), Hsizes, chunkSizes_length by assumption.
    reflexivity.
  - apply (proj1 (Forall_map (@length _)
                    (fun size => size <= Expo.pushNotificationChunkSizeLimit) _)).
    rewrite Hsizes. now apply chunkSizes_bounded.
  - rewrite chunkPushNotifications_concat. apply buildMessages_recipients.
  - intros H250. rewrite Hsizes, H250. reflexivity.
Qed.

Lemma submissions_are_bounded_contiguous_chunks_witness :
  let env := Sample.scripted [] in
  Expo.pushNotificationChunkSizeLimit < length (validated env SampleInputs.tokens250)
  /\ exists r calls,
       sendPushNotifications env SampleInputs.tokens250 "title" "body" [] []
       = (Js.Normal r, [] ++ map SendPushNotificationsAsync calls)
       /\ length calls = ceilDiv (length (validated env SampleInputs.tokens250))
                           Expo.pushNotificationChunkSizeLimit
       /\ Forall (fun chunk => length chunk <= Expo.pushNotificationChunkSizeLimit) calls
       /\ map Expo.to (concat calls) = validated env SampleInputs.tokens250
       /\ (length (validated env SampleInputs.tokens250) = 250
           -> map (@length _) calls = [100; 100; 50]).
Proof.
  split.
  - vm_compute. lia.
  - apply (submissions_are_bounded_contiguous_chunks (Sample.scripted [])
             SampleInputs.tokens250 "title" "body" [] []).
    vm_compute. lia.
Defined.

(** ** The game-invitation sender *)

Section InvitationFacts.

Import GameInvitationSender.

Variable env : Env.

Lemma logInvitationNotification_run userId gameId title message inviterId w :
  exists record,
    logInvitationNotification env userId gameId title message inviterId w
    = (Js.Normal tt, w ++ [InsertNotifications [record]])
    /\ Notification.user_id record = userId
    /\ Notification.status record = "sent".
Proof.
  unfold logInvitationNotification, try_catch, bind, clock, await, ret.
  eexists. split; [|split].
  - destruct (insert_notifications env (length w) _); reflexivity.
  - reflexivity.
  - reflexivity.
Qed.

Lemma invitation_removeInvalidToken_run userId w :
  removeInvalidToken env userId w = (Js.Normal tt, w ++ [UpdatePushTokenNull userId]).
Proof. apply guarded_call_run. Qed.

(** The completion after the transport has answered: it throws exactly
    when there is no ticket to read, fails with the ticket's message on an
    error ticket and succeeds otherwise. *)
Lemma processTicket_run tickets title message invitationData w :
  exists w',
    processTicket env tickets title message invitationData w
    = (match tickets with
       | [] => Js.Thrown (Js.TypeError "status")
       | ticket :: _ =>
           if String.eqb (Expo.status ticket) "error"
           then Js.Normal {| success := false; error := Expo.message ticket |}
           else Js.Normal {| success := true; error := None |}
       end, w').
Proof.
  unfold processTicket, bind.
  destruct (logInvitationNotification_run (targetUserId invitationData)
              (gameId invitationData) title message (inviterUserId invitationData) w)
    as (record & -> & _).
  destruct tickets as [|ticket rest]; [eexists; reflexivity|].
  destruct (String.eqb (Expo.status ticket) "error"); [|eexists; reflexivity].
  destruct (Expo.detailsErrorIs ticket "DeviceNotRegistered").
  - rewrite invitation_removeInvalidToken_run. eexists. reflexivity.
  - eexists. reflexivity.
Qed.

Lemma error_ticket_has_message ticket :
  Expo.status ticket = "error" -> exists reason, Expo.message ticket = Some reason.
Proof.
  destruct ticket as [id|reason details]; simpl; [discriminate|].
  intros _. now exists reason.
Qed.

End InvitationFacts.

(** C9.  For every invitation and every behaviour of the store and of the
    transport, [sendGameInvitationNotification] completes normally; a result
    with [success: false] carries an [error] string; and the result is
    [success: true] exactly when the lookup of the target user answers with a
    user and no error, that user's push token is present, non-empty and a valid
    Expo push token, the lookup of the inviter answers with a user and no
    error, and the transport hands back a first ticket whose status is not
    [error]. *)
Theorem sendGameInvitationNotification_never_throws env invitationData w :
  exists r w',
    GameInvitationSender.sendGameInvitationNotification env invitationData w
    = (Js.Normal r, w')
    /\ (GameInvitationSender.success r = false ->
        exists reason, GameInvitationSender.error r = Some reason)
    /\ (GameInvitationSender.success r = true <->
        exists target targetUser pushToken inviter inviterUser ticket rest,
          select_user_profile env (length w) "id, push_token, full_name, email"
            (GameInvitationSender.targetUserId invitationData) = Js.Normal target
          /\ Supabase.error target = None
          /\ Supabase.data target = Some targetUser
          /\ UserProfile.push_token targetUser = Some pushToken
          /\ pushToken <> ""
          /\ isExpoPushToken env pushToken = true
          /\ select_user_profile env (S (length w)) "full_name, email"
               (GameInvitationSender.inviterUserId invitationData) = Js.Normal inviter
          /\ Supabase.error inviter = None
          /\ Supabase.data inviter = Some inviterUser
          /\ sendPushNotificationsAsync env (S (S (length w)))
               [GameInvitationSender.notificationMessage env pushToken
                  (Js.or_default
                     (Js.or_else (UserProfile.full_name inviterUser)
                                 (UserProfile.email inviterUser))
                     "Someone")
                  invitationData]
             = Js.Normal (ticket :: rest)
          /\ Expo.status ticket <> "error").
Proof.
  unfold GameInvitationSender.sendGameInvitationNotification, try_catch, bind, await.
  destruct (select_user_profile env (length w) _ _) as [target|e] eqn:Etarget;
    [|invitation_fails].
  destruct (Supabase.error target) eqn:Eerr; [invitation_fails|].
  destruct (Supabase.data target) as [targetUser|] eqn:Edata; [|invitation_fails].
  destruct (UserProfile.push_token targetUser) as [pushToken|] eqn:Etoken;
    [|invitation_fails].
  destruct (String.eqb pushToken "") eqn:Eempty; [invitation_fails|].
  destruct (isExpoPushToken env pushToken) eqn:Evalid; cbv beta iota delta [negb];
    [|invitation_fails].
  rewrite length_snoc.
  destruct (select_user_profile env (S (length w)) _ _) as [inviter|e] eqn:Einviter;
    [|invitation_fails].
  destruct (Supabase.error inviter) eqn:Eerr'; [invitation_fails|].
  destruct (Supabase.data inviter) as [inviterUser|] eqn:Edata'; [|invitation_fails].
  cbv beta. rewrite !length_snoc.
  destruct (sendPushNotificationsAsync env (S (S (length w))) _) as [tickets|e] eqn:Esend;
    [|invitation_fails].
  match goal with
  | |- context [GameInvitationSender.processTicket env tickets ?t ?m invitationData ?w0] =>
      destruct (processTicket_run env tickets t m invitationData w0)
        as (w' & ->)
  end.
  destruct tickets as [|ticket rest]; [invitation_fails|].
  destruct (String.eqb (Expo.status ticket) "error") eqn:Estatus.
  - eexists; eexists; split; [reflexivity|]; simpl; split.
    + intros _. apply error_ticket_has_message.
      now apply String.eqb_eq.
    + split; [discriminate|].
      intros (? & ? & ? & ? & ? & ? & ? & ? & ? & ? & ? & ? & ? & ? & ? & ? & ? & ?).
      eqb_to_eq. congruence.
  - eexists; eexists; split; [reflexivity|]; simpl; split; [discriminate|].
    split; [intros _|reflexivity].
    exists target, targetUser, pushToken, inviter, inviterUser, ticket, rest.
    eqb_to_eq. repeat split; assumption.
Qed.

(** The condition of C9 can be met: with a store that knows both users and a
    transport that delivers, the invitation goes through, and it is logged. *)
Example invitation_goes_through :
  GameInvitationSender.sendGameInvitationNotification
    (SampleInputs.withProfiles (Sample.scripted [Js.Normal []; Js.Normal [];
                                                 Js.Normal [Sample.delivered]]))
    SampleInputs.invitation []
  = (Js.Normal {| GameInvitationSender.success := true;
                  GameInvitationSender.error := None |},
     [SelectUserProfile "id, push_token, full_name, email" "test-user-id";
      SelectUserProfile "full_name, email" "test-inviter-id";
      SendPushNotificationsAsync
        [GameInvitationSender.notificationMessage
           (SampleInputs.withProfiles (Sample.scripted []))
           (Sample.token "stale") "test-inviter-id@example.com" SampleInputs.invitation];
      InsertNotifications
        [{| Notification.user_id := "test-user-id";
            Notification.type := "game_invitation";
            Notification.title := "⚽ Game Invitation";
            Notification.message :=
              "test-inviter-id@example.com invited you to join a match at Test Pitch on 2024-01-01T18:00";
            Notification.data :=
              [("game_id", "test-game-id"); ("invited_by", "test-inviter-id");
               ("sent_at", "2024-01-01T16:00:00.000Z"); ("notification_type", "push")];
            Notification.status := "sent" |}]]).
Proof. reflexivity. Qed.

(** ** The match-reminder sender *)

Lemma submissions_app w1 w2 : submissions (w1 ++ w2) = submissions w1 ++ submissions w2.
Proof.
  induction w1 as [|c w1 IH]; simpl; [reflexivity|].
  destruct c; simpl; now rewrite IH.
Qed.

Section ReminderFacts.

Import MatchReminderSender.

Variable env : Env.

Lemma markReminderSent_run bookingId w :
  markReminderSent env bookingId w = (Js.Normal tt, w ++ [RpcMarkReminderSent bookingId]).
Proof. apply guarded_call_run. Qed.

Lemma removeInvalidToken_run userId w :
  removeInvalidToken env userId w = (Js.Normal tt, w ++ [UpdatePushTokenNull userId]).
Proof. apply guarded_call_run. Qed.

Lemma logNotifications_run participants bookingId title message w :
  logNotifications env participants bookingId title message w
  = (Js.Normal tt,
     w ++ [InsertNotifications
             (notificationRecords env participants bookingId title message (length w) 0)]).
Proof.
  unfold logNotifications, try_catch, bind, clock, await, ret.
  destruct (insert_notifications env (length w) _); reflexivity.
Qed.

Lemma notificationRecords_rows participants bookingId title message now : forall k,
  Forall2 (fun p record =>
             Notification.user_id record = Participant.user_id p
             /\ Notification.status record = "sent")
          participants
          (notificationRecords env participants bookingId title message now k).
Proof.
  induction participants as [|p rest IH]; intros k; simpl; constructor; auto.
Qed.

Lemma reminder_sendChunks_run chunks : forall tickets w,
  sendChunks env chunks tickets w
  = (Js.Normal (tickets ++ PushNotificationSender.collected env (length w) chunks),
     w ++ map SendPushNotificationsAsync chunks).
Proof.
  induction chunks as [|chunk rest IH]; intros tickets w; simpl.
  - unfold ret. now rewrite !app_nil_r.
  - unfold bind, try_catch, await, ret.
    destruct (sendPushNotificationsAsync env (length w) chunk) as [ticketChunk|e];
      rewrite IH, length_snoc, <- !app_assoc; reflexivity.
Qed.

(** Whether it ends normally or throws, the pass over the tickets only ever
    issues token clean-ups. *)
Lemma processTickets_trace tickets participants : forall i w,
  exists cleanup,
    snd (processTickets env tickets participants i w) = w ++ cleanup
    /\ Forall isCleanup cleanup.
Proof.
  induction tickets as [|ticket rest IH]; intros i w; simpl.
  - exists []. now rewrite app_nil_r.
  - destruct (nth_error participants i) as [participant|].
    + unfold bind.
      destruct (String.eqb (Expo.status ticket) "error");
        [destruct (Expo.detailsErrorIs ticket "DeviceNotRegistered")|].
      * rewrite removeInvalidToken_run.
        destruct (IH (S i) (w ++ [UpdatePushTokenNull (Participant.user_id participant)]))
          as (cleanup & -> & Hc).
        exists (UpdatePushTokenNull (Participant.user_id participant) :: cleanup).
        rewrite <- app_assoc. split; [reflexivity|]. constructor; [exact I|assumption].
      * unfold ret. apply IH.
      * unfold ret. apply IH.
    + exists []. unfold throw. simpl. now rewrite app_nil_r.
Qed.

Lemma collected_all_raised chunks : forall t,
  (forall t chunk, exists e, sendPushNotificationsAsync env t chunk = Js.Thrown e) ->
  PushNotificationSender.collected env t chunks = [].
Proof.
  intros t Hall. revert t.
  induction chunks as [|chunk rest IH]; intros t; simpl; [reflexivity|].
  destruct (Hall t chunk) as [e ->]. apply IH.
Qed.

(** The trace and the completion of the part that runs once a participant
    has a valid token. *)
Lemma remind_run match_ validParticipants w :
  let chunks := Expo.chunkPushNotifications
                  (map (reminderMessage env match_) validParticipants) in
  let sent := w ++ map SendPushNotificationsAsync chunks in
  let records := notificationRecords env validParticipants (Match.booking_id match_)
                   (title match_) (message env match_) (length sent) 0 in
  exists cleanup,
    snd (remind env match_ validParticipants w)
    = sent ++ [InsertNotifications records; RpcMarkReminderSent (Match.booking_id match_)]
           ++ cleanup
    /\ Forall isCleanup cleanup
    /\ (PushNotificationSender.collected env (length w) chunks = [] -> cleanup = []).
Proof.
  intros chunks sent records. unfold remind, bind.
  fold chunks. rewrite reminder_sendChunks_run. fold sent. simpl.
  rewrite logNotifications_run. fold records.
  rewrite markReminderSent_run.
  set (w2 := (sent ++ [InsertNotifications records])
               ++ [RpcMarkReminderSent (Match.booking_id match_)]).
  destruct (PushNotificationSender.collected env (length w) chunks) as [|ticket rest] eqn:E.
  - exists []. simpl. unfold w2. rewrite <- !app_assoc. simpl. auto.
  - destruct (processTickets_trace (ticket :: rest) validParticipants 0 w2)
      as (cleanup & -> & Hc).
    exists cleanup. unfold w2. rewrite <- !app_assoc. simpl.
    repeat split; [assumption | discriminate].
Qed.

End ReminderFacts.

Import MatchReminderSender.

Lemma filter_none {A : Type} (f : A -> bool) (l : list A) :
  Forall (fun x => f x = false) l -> filter f l = [].
Proof.
  induction 1 as [|x l Hx _ IH]; simpl; [reflexivity|].
  now rewrite Hx.
Qed.

(** C8.  When the participant query answers without an error and with no
    participants ([null] or an empty list), or with participants none of whom
    has a valid push token, [processMatchReminder] issues the
    [mark_reminder_sent] call right after the query, submits nothing to the
    transport, and completes normally. *)
Theorem no_valid_recipient_marks_reminder_sent env match_ w response :
  rpc_get_match_participants env (length w) (Match.booking_id match_) = Js.Normal response ->
  Supabase.error response = None ->
  (Supabase.data response = None
   \/ exists participants,
        Supabase.data response = Some participants
        /\ Forall (fun p => hasValidToken env p = false) participants) ->
  exists w',
    processMatchReminder env match_ w = (Js.Normal tt, w')
    /\ w' = w ++ [RpcGetMatchParticipants (Match.booking_id match_);
                  RpcMarkReminderSent (Match.booking_id match_)]
    /\ submissions w' = submissions w.
Proof.
  intros Hquery Herror Hnone.
  eexists. split; [|split; [reflexivity|]].
  - unfold processMatchReminder, try_catch, bind, await.
    rewrite Hquery, Herror.
    destruct Hnone as [-> | (participants & -> & Hinvalid)].
    + rewrite markReminderSent_run, <- app_assoc. reflexivity.
    + rewrite (filter_none _ _ Hinvalid). simpl.
      destruct (length participants =? 0);
        rewrite markReminderSent_run, <- app_assoc; reflexivity.
  - rewrite submissions_app. simpl. apply app_nil_r.
Qed.

Lemma no_valid_recipient_marks_reminder_sent_witness :
  let participants := [SampleInputs.participant "u1" None;
                       SampleInputs.participant "u2" (Some "not-a-token")] in
  let env := SampleInputs.withParticipants participants (Sample.scripted []) in
  let response := {| Supabase.data := Some participants; Supabase.error := None |} in
  rpc_get_match_participants env 0 "booking-1" = Js.Normal response
  /\ Supabase.error response = None
  /\ Forall (fun p => hasValidToken env p = false) participants
  /\ exists w',
       processMatchReminder env SampleInputs.friendly [] = (Js.Normal tt, w')
       /\ w' = [] ++ [RpcGetMatchParticipants "booking-1"; RpcMarkReminderSent "booking-1"]
       /\ submissions w' = submissions [].
Proof.
  split; [reflexivity|]. split; [reflexivity|].
  split; [repeat constructor|].
  apply (no_valid_recipient_marks_reminder_sent
           (SampleInputs.withParticipants
              [SampleInputs.participant "u1" None;
               SampleInputs.participant "u2" (Some "not-a-token")] (Sample.scripted []))
           SampleInputs.friendly []
           {| Supabase.data := Some [SampleInputs.participant "u1" None;
                                     SampleInputs.participant "u2" (Some "not-a-token")];
              Supabase.error := None |}).
  - reflexivity.
  - reflexivity.
  - right. eexists. split; [reflexivity|]. repeat constructor.
Defined.

(** C10.  When the participant query answers without an error and at least one
    participant has a valid push token, [processMatchReminder] completes
    normally and, right after the submission loop, inserts one notification
    row with status [sent] per valid participant and issues the
    [mark_reminder_sent] call, whatever the submissions did; what follows is
    token clean-up only, and there is none when every submission threw. *)
Theorem reminder_logged_and_marked_after_submissions env match_ w response participants :
  rpc_get_match_participants env (length w) (Match.booking_id match_) = Js.Normal response ->
  Supabase.error response = None ->
  Supabase.data response = Some participants ->
  filter (hasValidToken env) participants <> [] ->
  let validParticipants := filter (hasValidToken env) participants in
  let chunks := Expo.chunkPushNotifications
                  (map (reminderMessage env match_) validParticipants) in
  exists records cleanup,
    processMatchReminder env match_ w
    = (Js.Normal tt,
       w ++ [RpcGetMatchParticipants (Match.booking_id match_)]
         ++ map SendPushNotificationsAsync chunks
         ++ [InsertNotifications records; RpcMarkReminderSent (Match.booking_id match_)]
         ++ cleanup)
    /\ Forall2 (fun p record =>
                  Notification.user_id record = Participant.user_id p
                  /\ Notification.status record = "sent")
               validParticipants records
    /\ Forall isCleanup cleanup
    /\ ((forall t chunk, exists e, sendPushNotificationsAsync env t chunk = Js.Thrown e) ->
        cleanup = []).
Proof.
  intros Hquery Herror Hdata Hvalid validParticipants chunks.
  assert (Hlen : (length validParticipants =? 0) = false).
  { unfold validParticipants.
    destruct (filter (hasValidToken env) participants); [congruence|reflexivity]. }
  assert (Hlen' : (length participants =? 0) = false).
  { destruct participants; [simpl in Hvalid; congruence|reflexivity]. }
  set (w1 := w ++ [RpcGetMatchParticipants (Match.booking_id match_)]).
  destruct (remind_run env match_ validParticipants w1) as (cleanup & Htrace & Hcleanup & Hnone).
  fold chunks in Htrace, Hnone.
  eexists. exists cleanup. split; [|split; [apply notificationRecords_rows|split]].
  - unfold processMatchReminder, try_catch, bind, await.
    rewrite Hquery, Herror, Hdata. fold w1. fold validParticipants.
    rewrite Hlen, Hlen'.
    destruct (remind env match_ validParticipants w1) as [[[]|e] w'] eqn:E;
      simpl in Htrace; subst w'; unfold ret, w1; rewrite <- !app_assoc; reflexivity.
  - assumption.
  - intros Hall. apply Hnone. now apply collected_all_raised.
Qed.

Lemma reminder_logged_and_marked_after_submissions_witness :
  let participants := [SampleInputs.participant "u1" (Some (Sample.token "a"));
                       SampleInputs.participant "u2" (Some "not-a-token");
                       SampleInputs.participant "u3" (Some (Sample.token "b"))] in
  let env := SampleInputs.withParticipants participants (Sample.scripted []) in
  let response := {| Supabase.data := Some participants; Supabase.error := None |} in
  rpc_get_match_participants env 0 "booking-1" = Js.Normal response
  /\ filter (hasValidToken env) participants <> []
  /\ (forall t chunk, exists e, sendPushNotificationsAsync env t chunk = Js.Thrown e)
  /\ exists records cleanup,
       processMatchReminder env SampleInputs.friendly []
       = (Js.Normal tt,
          [] ++ [RpcGetMatchParticipants "booking-1"]
             ++ map SendPushNotificationsAsync
                  (Expo.chunkPushNotifications
                     (map (reminderMessage env SampleInputs.friendly)
                          (filter (hasValidToken env) participants)))
             ++ [InsertNotifications records; RpcMarkReminderSent "booking-1"]
             ++ cleanup)
       /\ Forall2 (fun p record =>
                     Notification.user_id record = Participant.user_id p
                     /\ Notification.status record = "sent")
                  (filter (hasValidToken env) participants) records
       /\ Forall isCleanup cleanup
       /\ ((forall t chunk, exists e, sendPushNotificationsAsync env t chunk = Js.Thrown e) ->
           cleanup = []).
Proof.
  split; [reflexivity|]. split; [discriminate|].
  split.
  - intros t chunk. exists Sample.networkError. simpl. now destruct t.
  - apply (reminder_logged_and_marked_after_submissions
             (SampleInputs.withParticipants
                [SampleInputs.participant "u1" (Some (Sample.token "a"));
                 SampleInputs.participant "u2" (Some "not-a-token");
                 SampleInputs.participant "u3" (Some (Sample.token "b"))]
                (Sample.scripted []))
             SampleInputs.friendly []
             {| Supabase.data :=
                  Some [SampleInputs.participant "u1" (Some (Sample.token "a"));
                        SampleInputs.participant "u2" (Some "not-a-token");
                        SampleInputs.participant "u3" (Some (Sample.token "b"))];
                Supabase.error := None |}
             [SampleInputs.participant "u1" (Some (Sample.token "a"));
              SampleInputs.participant "u2" (Some "not-a-token");
              SampleInputs.participant "u3" (Some (Sample.token "b"))]).
    + reflexivity.
    + reflexivity.
    + reflexivity.
    + discriminate.
Defined.

(** * Further properties of the senders *)

(** ** pushNotificationSender.js: counting, empty dispatch, broadcast *)

Lemma countResults_flagged_length tokens tickets : forall index c,
  length (PushNotificationSender.invalidTokensAcc
            (PushNotificationSender.countResults tokens tickets index c))
  = length (PushNotificationSender.invalidTokensAcc c)
    + length (filter PushNotificationSender.flagged tickets).
Proof.
  induction tickets as [|ticket rest IH]; intros index c; simpl; [lia|].
  rewrite IH. unfold PushNotificationSender.countTicket, PushNotificationSender.flagged,
    PushNotificationSender.isOk.
  destruct (String.eqb (Expo.status ticket) "ok"); simpl; [lia|].
  destruct (Expo.detailsErrorIs ticket "DeviceNotRegistered"); simpl;
    [rewrite length_snoc; lia | lia].
Qed.

Lemma flagged_among_failed tickets :
  length (filter PushNotificationSender.flagged tickets)
  <= length (filter (fun t => negb (PushNotificationSender.isOk t)) tickets).
Proof.
  induction tickets as [|ticket rest IH]; simpl; [lia|].
  unfold PushNotificationSender.flagged at 1.
  destruct (PushNotificationSender.isOk ticket); simpl; [lia|].
  destruct (Expo.detailsErrorIs ticket "DeviceNotRegistered"); simpl; lia.
Qed.

(** The counters of the result follow the tickets collected, whatever the
    transport did: [success] counts the [ok] tickets, [failed] all the others,
    and [invalidTokens] has one entry per failed ticket whose error is
    [DeviceNotRegistered], so never more entries than [failed]. *)
Theorem counters_follow_tickets env tokens title body data w :
  exists r w',
    PushNotificationSender.sendPushNotifications env tokens title body data w
    = (Js.Normal r, w')
    /\ PushNotificationSender.success r
       = length (filter PushNotificationSender.isOk (PushNotificationSender.tickets r))
    /\ PushNotificationSender.success r + PushNotificationSender.failed r
       = length (PushNotificationSender.tickets r)
    /\ length (PushNotificationSender.invalidTokens r)
       = length (filter PushNotificationSender.flagged (PushNotificationSender.tickets r))
    /\ length (PushNotificationSender.invalidTokens r) <= PushNotificationSender.failed r.
Proof.
  rewrite sendPushNotifications_run.
  eexists. eexists. split; [reflexivity|]. simpl.
  set (collectedTickets := PushNotificationSender.collected env (length w) _).
  set (c0 := {| PushNotificationSender.successCount := 0;
                PushNotificationSender.failureCount := 0;
                PushNotificationSender.invalidTokensAcc := [] |}).
  destruct (countResults_counts tokens collectedTickets 0 c0) as [Hs Hf].
  pose proof (countResults_flagged_length tokens collectedTickets 0 c0) as Hi.
  pose proof (filter_partition_length PushNotificationSender.isOk collectedTickets) as Hp.
  pose proof (flagged_among_failed collectedTickets) as Hle.
  rewrite Hs, Hf, Hi. simpl. repeat split; lia.
Qed.

(** When no token of the input is well-formed, and in particular when the
    input is empty, nothing is submitted: the trace is left as it is and the
    result has no ticket, zero [success] and [failed], and no invalid token;
    [total] is still the length of the input. *)
Theorem nothing_valid_nothing_submitted env tokens title body data w :
  PushNotificationSender.validated env tokens = [] ->
  PushNotificationSender.sendPushNotifications env tokens title body data w
  = (Js.Normal {| PushNotificationSender.success := 0;
                  PushNotificationSender.failed := 0;
                  PushNotificationSender.total := length tokens;
                  PushNotificationSender.invalidTokens := [];
                  PushNotificationSender.tickets := [] |}, w).
Proof.
  intros Hnone. rewrite sendPushNotifications_run, buildMessages_spec, Hnone.
  simpl. now rewrite app_nil_r.
Qed.

Lemma nothing_valid_nothing_submitted_witness :
  let env := Sample.failingAt 7 in
  let tokens := ["not-a-token"; ""; "ExponentPushToken[unclosed"] in
  PushNotificationSender.validated env tokens = []
  /\ PushNotificationSender.sendPushNotifications env tokens "title" "body" [] []
     = (Js.Normal {| PushNotificationSender.success := 0;
                     PushNotificationSender.failed := 0;
                     PushNotificationSender.total := 3;
                     PushNotificationSender.invalidTokens := [];
                     PushNotificationSender.tickets := [] |}, []).
Proof.
  split; [reflexivity|].
  apply (nothing_valid_nothing_submitted (Sample.failingAt 7)
           ["not-a-token"; ""; "ExponentPushToken[unclosed"] "title" "body" [] []).
  reflexivity.
Defined.

Lemma attribution_without_malformed_or_raised_witness :
  let env := Sample.failingAt 7 in
  let tokens := [Sample.token "a"; Sample.token "stale"; Sample.token "b"] in
  PushNotificationSender.one_outcome_per_message env
  /\ PushNotificationSender.malformed env tokens = []
  /\ PushNotificationSender.raised env 0
       (Expo.chunkPushNotifications
          (PushNotificationSender.buildMessages env tokens "title" "body" [] [])) = []
  /\ exists r w',
       PushNotificationSender.sendPushNotifications env tokens "title" "body" [] []
       = (Js.Normal r, w')
       /\ length (PushNotificationSender.tickets r) = length tokens
       /\ PushNotificationSender.invalidTokens r
          = map (fun p => Some (fst p))
              (filter (fun p => PushNotificationSender.flagged (snd p))
                 (combine tokens (PushNotificationSender.tickets r))).
Proof.
  split; [apply failingAt_one_outcome_per_message|].
  split; [reflexivity|]. split; [reflexivity|].
  apply (attribution_without_malformed_or_raised (Sample.failingAt 7)
           [Sample.token "a"; Sample.token "stale"; Sample.token "b"] "title" "body" [] []).
  - apply failingAt_one_outcome_per_message.
  - reflexivity.
  - reflexivity.
Defined.

(** Past the end of [tokens] the counting pass finds no recipient: every
    failed ticket with [DeviceNotRegistered] read at an index beyond the input
    adds [undefined] to [invalidTokens]. *)
Theorem tickets_past_the_tokens_report_undefined tokens tickets : forall index c,
  length tokens <= index ->
  PushNotificationSender.invalidTokensAcc
    (PushNotificationSender.countResults tokens tickets index c)
  = PushNotificationSender.invalidTokensAcc c
    ++ map (fun _ => None) (filter PushNotificationSender.flagged tickets).
Proof.
  induction tickets as [|ticket rest IH]; intros index c Hpast; simpl.
  - now rewrite app_nil_r.
  - rewrite IH by lia.
    unfold PushNotificationSender.countTicket, PushNotificationSender.flagged,
      PushNotificationSender.isOk.
    rewrite (proj2 (nth_error_None tokens index) Hpast).
    destruct (String.eqb (Expo.status ticket) "ok"); simpl; [reflexivity|].
    destruct (Expo.detailsErrorIs ticket "DeviceNotRegistered"); simpl;
      [now rewrite <- app_assoc | reflexivity].
Qed.

Lemma tickets_past_the_tokens_report_undefined_witness :
  let c := {| PushNotificationSender.successCount := 1;
              PushNotificationSender.failureCount := 0;
              PushNotificationSender.invalidTokensAcc := [] |} in
  let tickets := [Sample.deviceNotRegistered; Sample.delivered; Sample.deviceNotRegistered] in
  length [Sample.token "a"] <= 1
  /\ PushNotificationSender.invalidTokensAcc
       (PushNotificationSender.countResults [Sample.token "a"] tickets 1 c)
     = PushNotificationSender.invalidTokensAcc c
       ++ map (fun _ => None) (filter PushNotificationSender.flagged tickets).
Proof.
  split; [simpl; lia|].
  apply (tickets_past_the_tokens_report_undefined [Sample.token "a"]
           [Sample.deviceNotRegistered; Sample.delivered; Sample.deviceNotRegistered] 1).
  simpl. lia.
Defined.

Lemma get_set_same key value o : JsObject.get key (JsObject.set key value o) = Some value.
Proof.
  induction o as [|[k v] rest IH]; simpl.
  - now rewrite String.eqb_refl.
  - destruct (String.eqb k key) eqn:E; simpl; rewrite E; [reflexivity|exact IH].
Qed.

Lemma get_set_other key key' value o :
  key' <> key -> JsObject.get key' (JsObject.set key value o) = JsObject.get key' o.
Proof.
  intros Hne. induction o as [|[k v] rest IH]; simpl.
  - destruct (String.eqb_spec key key'); [congruence|reflexivity].
  - destruct (String.eqb_spec k key) as [->|Hk]; simpl.
    + destruct (String.eqb_spec key key'); [congruence|reflexivity].
    + destruct (String.eqb k key'); [reflexivity|exact IH].
Qed.

(** Every message a broadcast submits is tagged [type: 'broadcast'] and
    [screen: 'More'], also when the caller's data sets these keys to something
    else; every other key reads as in the caller's data; and the messages
    address the well-formed tokens of the input, in order. *)
Theorem broadcast_messages_are_tagged env title message userTokens data w :
  exists r calls,
    Broadcast.sendBroadcastNotification env title message userTokens data w
    = (Js.Normal r, w ++ map SendPushNotificationsAsync calls)
    /\ map Expo.to (concat calls) = PushNotificationSender.validated env userTokens
    /\ Forall (fun m =>
                 JsObject.get "type" (Expo.data m) = Some "broadcast"
                 /\ JsObject.get "screen" (Expo.data m) = Some "More"
                 /\ forall key, key <> "type" -> key <> "screen" ->
                                JsObject.get key (Expo.data m) = JsObject.get key data)
              (concat calls).
Proof.
  unfold Broadcast.sendBroadcastNotification, bind.
  rewrite sendPushNotifications_run.
  eexists. eexists. split; [reflexivity|].
  rewrite chunkPushNotifications_concat. split; [apply buildMessages_recipients|].
  rewrite buildMessages_spec. simpl.
  apply Forall_forall. intros m Hm. apply in_map_iff in Hm as (t & <- & _). simpl.
  unfold Broadcast.broadcastData. repeat split.
  - rewrite get_set_other by discriminate. apply get_set_same.
  - apply get_set_same.
  - intros key Htype Hscreen. now rewrite !get_set_other.
Qed.

(** ** The game-invitation sender: what one invitation does to the outside *)

Lemma processTicket_calls env tickets title message invitationData w :
  exists completion record,
    GameInvitationSender.processTicket env tickets title message invitationData w
    = (completion,
       w ++ [InsertNotifications [record]]
         ++ (if firstTicketStale tickets
             then [UpdatePushTokenNull (GameInvitationSender.targetUserId invitationData)]
             else []))
    /\ Notification.user_id record = GameInvitationSender.targetUserId invitationData
    /\ Notification.status record = "sent".
Proof.
  unfold GameInvitationSender.processTicket, bind.
  destruct (logInvitationNotification_run env
              (GameInvitationSender.targetUserId invitationData)
              (GameInvitationSender.gameId invitationData) title message
              (GameInvitationSender.inviterUserId invitationData) w)
    as (record & -> & Huser & Hstatus).
  destruct tickets as [|ticket rest]; simpl.
  - eexists. exists record. unfold throw. repeat split; assumption.
  - unfold isStale.
    destruct (String.eqb (Expo.status ticket) "error"); simpl.
    + destruct (Expo.detailsErrorIs ticket "DeviceNotRegistered").
      * rewrite invitation_removeInvalidToken_run, <- app_assoc.
        eexists. exists record. repeat split; assumption.
      * eexists. exists record. repeat split; assumption.
    + eexists. exists record. repeat split; assumption.
Qed.

(** The calls of one invitation, case by case: the lookup of the target
    alone; the two lookups; or the two lookups and one submission of one
    message addressed to the target's stored, valid token, followed, when the
    transport returned, by the insertion of one row and, when the first ticket
    says so, by the clearing of the target's token. *)
Lemma invitation_calls env invitationData w :
  let lookupTarget := SelectUserProfile "id, push_token, full_name, email"
                        (GameInvitationSender.targetUserId invitationData) in
  let lookupInviter := SelectUserProfile "full_name, email"
                         (GameInvitationSender.inviterUserId invitationData) in
  exists r calls,
    GameInvitationSender.sendGameInvitationNotification env invitationData w
    = (Js.Normal r, w ++ calls)
    /\ (calls = [lookupTarget]
        \/ calls = [lookupTarget; lookupInviter]
        \/ exists target targetUser m,
             select_user_profile env (length w) "id, push_token, full_name, email"
               (GameInvitationSender.targetUserId invitationData) = Js.Normal target
             /\ Supabase.data target = Some targetUser
             /\ UserProfile.push_token targetUser = Some (Expo.to m)
             /\ isExpoPushToken env (Expo.to m) = true
             /\ match sendPushNotificationsAsync env (S (S (length w))) [m] with
                | Js.Thrown _ =>
                    calls = [lookupTarget; lookupInviter; SendPushNotificationsAsync [m]]
                | Js.Normal tickets =>
                    exists record,
                      calls = [lookupTarget; lookupInviter; SendPushNotificationsAsync [m];
                               InsertNotifications [record]]
                              ++ (if firstTicketStale tickets
                                  then [UpdatePushTokenNull
                                          (GameInvitationSender.targetUserId invitationData)]
                                  else [])
                      /\ Notification.user_id record
                         = GameInvitationSender.targetUserId invitationData
                      /\ Notification.status record = "sent"
                end).
Proof.
  intros lookupTarget lookupInviter.
  unfold GameInvitationSender.sendGameInvitationNotification, try_catch, bind, await.
  fold lookupTarget. fold lookupInviter.
  destruct (select_user_profile env (length w) _ _) as [target|e] eqn:Etarget;
    [|only_target_lookup].
  destruct (Supabase.error target) eqn:Eerr; [only_target_lookup|].
  destruct (Supabase.data target) as [targetUser|] eqn:Edata; [|only_target_lookup].
  destruct (UserProfile.push_token targetUser) as [pushToken|] eqn:Etoken;
    [|only_target_lookup].
  destruct (String.eqb pushToken "") eqn:Eempty; [only_target_lookup|].
  destruct (isExpoPushToken env pushToken) eqn:Evalid; cbv beta iota delta [negb];
    [|only_target_lookup].
  rewrite length_snoc.
  destruct (select_user_profile env (S (length w)) _ _) as [inviter|e] eqn:Einviter;
    [|both_lookups].
  destruct (Supabase.error inviter) eqn:Eerr'; [both_lookups|].
  destruct (Supabase.data inviter) as [inviterUser|] eqn:Edata'; [|both_lookups].
  cbv beta. rewrite !length_snoc.
  set (m := GameInvitationSender.notificationMessage env pushToken _ invitationData).
  destruct (sendPushNotificationsAsync env (S (S (length w))) [m]) as [tickets|e] eqn:Esend.
  - destruct (processTicket_calls env tickets (Expo.title m) (Expo.body m) invitationData
                (((w ++ [lookupTarget]) ++ [lookupInviter]) ++ [SendPushNotificationsAsync [m]]))
      as (completion & record & -> & Huser & Hstatus).
    destruct completion; unfold ret;
      (eexists; eexists; split;
       [rewrite <- !app_assoc; reflexivity
       |right; right; exists target, targetUser, m;
        rewrite Esend; repeat split; try assumption;
        exists record; repeat split; assumption]).
  - eexists. eexists. split.
    + rewrite <- !app_assoc. reflexivity.
    + right; right. exists target, targetUser, m.
      rewrite Esend. repeat split; assumption.
Qed.

(** An invitation submits at most once.  Either nothing is submitted, and then
    nothing is logged and no token is cleared; or exactly one batch of exactly
    one message is submitted, addressed to the push token stored for the
    target user, which is a valid Expo push token. *)
Theorem invitation_submits_at_most_once env invitationData w :
  exists r calls,
    GameInvitationSender.sendGameInvitationNotification env invitationData w
    = (Js.Normal r, w ++ calls)
    /\ ((submissions calls = [] /\ rowsInserted calls = [] /\ tokensCleared calls = [])
        \/ exists target targetUser m,
             submissions calls = [[m]]
             /\ select_user_profile env (length w) "id, push_token, full_name, email"
                  (GameInvitationSender.targetUserId invitationData) = Js.Normal target
             /\ Supabase.data target = Some targetUser
             /\ UserProfile.push_token targetUser = Some (Expo.to m)
             /\ isExpoPushToken env (Expo.to m) = true).
Proof.
  destruct (invitation_calls env invitationData w)
    as (r & calls & Hrun & [-> | [-> | (target & targetUser & m & Ht & Hd & Hp & Hv & Hsend)]]);
    exists r; eexists; (split; [exact Hrun|]).
  - left. repeat split.
  - left. repeat split.
  - right. exists target, targetUser, m. repeat split; try assumption.
    destruct (sendPushNotificationsAsync env (S (S (length w))) [m]) as [tickets|e].
    + destruct Hsend as (record & -> & _). now destruct (firstTicketStale tickets).
    + now subst calls.
Qed.

(** The row of an invitation is inserted exactly when the transport call
    returned: one row for the target user with status [sent], whatever the
    ticket says (an error ticket, or no ticket at all); and no row when the
    submission threw. *)
Theorem invitation_logged_when_transport_returns env invitationData w :
  exists r calls,
    GameInvitationSender.sendGameInvitationNotification env invitationData w
    = (Js.Normal r, w ++ calls)
    /\ forall m,
         submissions calls = [[m]] ->
         match sendPushNotificationsAsync env (S (S (length w))) [m] with
         | Js.Thrown _ => rowsInserted calls = []
         | Js.Normal _ =>
             exists record,
               rowsInserted calls = [record]
               /\ Notification.user_id record
                  = GameInvitationSender.targetUserId invitationData
               /\ Notification.status record = "sent"
         end.
Proof.
  destruct (invitation_calls env invitationData w)
    as (r & calls & Hrun & [-> | [-> | (target & targetUser & m & Ht & Hd & Hp & Hv & Hsend)]]);
    exists r; eexists; (split; [exact Hrun|]); intros m0 Hm0; try discriminate.
  destruct (sendPushNotificationsAsync env (S (S (length w))) [m]) as [tickets|e] eqn:Esend.
  - destruct Hsend as (record & -> & Huser & Hstatus).
    assert (m0 = m) as -> by (destruct (firstTicketStale tickets); simpl in Hm0; congruence).
    rewrite Esend. exists record.
    destruct (firstTicketStale tickets); repeat split; assumption.
  - subst calls. simpl in Hm0. assert (m0 = m) as -> by congruence.
    now rewrite Esend.
Qed.

(** The target's push token is cleared exactly when the transport returned
    and its first ticket is an error ticket with [DeviceNotRegistered]; it is
    then cleared once, for the target user and no one else. *)
Theorem invitation_clears_stale_token_only env invitationData w :
  exists r calls,
    GameInvitationSender.sendGameInvitationNotification env invitationData w
    = (Js.Normal r, w ++ calls)
    /\ forall m,
         submissions calls = [[m]] ->
         tokensCleared calls
         = match sendPushNotificationsAsync env (S (S (length w))) [m] with
           | Js.Normal tickets =>
               if firstTicketStale tickets
               then [GameInvitationSender.targetUserId invitationData]
               else []
           | Js.Thrown _ => []
           end.
Proof.
  destruct (invitation_calls env invitationData w)
    as (r & calls & Hrun & [-> | [-> | (target & targetUser & m & Ht & Hd & Hp & Hv & Hsend)]]);
    exists r; eexists; (split; [exact Hrun|]); intros m0 Hm0; try discriminate.
  destruct (sendPushNotificationsAsync env (S (S (length w))) [m]) as [tickets|e] eqn:Esend.
  - destruct Hsend as (record & -> & _).
    assert (m0 = m) as -> by (destruct (firstTicketStale tickets); simpl in Hm0; congruence).
    rewrite Esend. now destruct (firstTicketStale tickets).
  - subst calls. simpl in Hm0. assert (m0 = m) as -> by congruence.
    now rewrite Esend.
Qed.

(** ** The game-invitation sender: bulk invitations *)

Lemma invitation_looks_target_up_once env invitationData w :
  exists r calls,
    GameInvitationSender.sendGameInvitationNotification env invitationData w
    = (Js.Normal r, w ++ calls)
    /\ targetLookups calls = [GameInvitationSender.targetUserId invitationData].
Proof.
  destruct (invitation_calls env invitationData w)
    as (r & calls & Hrun & [-> | [-> | (target & targetUser & m & _ & _ & _ & _ & Hsend)]]);
    exists r; eexists; (split; [exact Hrun|]); try reflexivity.
  destruct (sendPushNotificationsAsync env (S (S (length w))) [m]) as [tickets|e].
  - destruct Hsend as (record & -> & _). now destruct (firstTicketStale tickets).
  - now subst calls.
Qed.

Lemma inviteEach_run env bulkInvitationData userIds : forall results w,
  exists r calls,
    BulkGameInvitations.inviteEach env userIds bulkInvitationData results w
    = (Js.Normal r, w ++ calls)
    /\ BulkGameInvitations.success r + BulkGameInvitations.failed r
       = BulkGameInvitations.success results + BulkGameInvitations.failed results
         + length userIds
    /\ BulkGameInvitations.failed r + length (BulkGameInvitations.errors results)
       = BulkGameInvitations.failed results + length (BulkGameInvitations.errors r)
    /\ targetLookups calls = userIds.
Proof.
  induction userIds as [|userId rest IH]; intros results w; simpl.
  - exists results, []. unfold ret. rewrite app_nil_r. repeat split; lia.
  - unfold bind, try_catch.
    destruct (invitation_looks_target_up_once env
                (BulkGameInvitations.invitationFor userId bulkInvitationData) w)
      as (result & calls1 & -> & Hlookup).
    destruct (GameInvitationSender.success result); unfold ret;
      match goal with
      | |- context [BulkGameInvitations.inviteEach env rest bulkInvitationData ?res ?w1] =>
          destruct (IH res w1) as (r & calls2 & -> & Hsum & Herrors & Hlookups)
      end;
      exists r, (calls1 ++ calls2); rewrite <- app_assoc;
      (split; [reflexivity|]); simpl in *;
      unfold targetLookups in *; rewrite flat_map_app, Hlookup, Hlookups;
      rewrite ?length_snoc in *; repeat split; simpl; lia.
Qed.

(** A bulk invitation never throws and accounts for every target user: each
    user is looked up, in the order given, whatever happened to the users
    before; [success + failed] is the number of target users; and [errors]
    holds one entry per failed invitation. *)
Theorem bulk_invitations_account_for_every_user env bulkInvitationData w :
  exists r calls,
    BulkGameInvitations.sendBulkGameInvitations env bulkInvitationData w
    = (Js.Normal r, w ++ calls)
    /\ BulkGameInvitations.success r + BulkGameInvitations.failed r
       = length (BulkGameInvitations.targetUserIds bulkInvitationData)
    /\ length (BulkGameInvitations.errors r) = BulkGameInvitations.failed r
    /\ targetLookups calls = BulkGameInvitations.targetUserIds bulkInvitationData.
Proof.
  unfold BulkGameInvitations.sendBulkGameInvitations, try_catch.
  destruct (inviteEach_run env bulkInvitationData
              (BulkGameInvitations.targetUserIds bulkInvitationData)
              {| BulkGameInvitations.success := 0;
                 BulkGameInvitations.failed := 0;
                 BulkGameInvitations.errors := [] |} w)
    as (r & calls & -> & Hsum & Herrors & Hlookups).
  exists r, calls. simpl in *. repeat split; [lia | lia | assumption].
Qed.

(** ** The match-reminder sender: tickets, failures of the store, one cycle *)

(** The pass over the tickets, entered at the index where [participants]
    begins: it clears the token of every participant whose own ticket is
    stale, and throws when it runs out of participants. *)
Lemma processTickets_run env tickets : forall pre participants w,
  MatchReminderSender.processTickets env tickets (pre ++ participants) (length pre) w
  = (if length tickets <=? length participants
     then Js.Normal tt else Js.Thrown (Js.TypeError "email"),
     w ++ map (fun p => UpdatePushTokenNull (Participant.user_id (fst p)))
            (filter (fun p => isStale (snd p)) (combine participants tickets))).
Proof.
  induction tickets as [|ticket rest IH]; intros pre participants w.
  - destruct participants; simpl; unfold ret; now rewrite app_nil_r.
  - destruct participants as [|participant participants].
    + simpl. rewrite app_nil_r, (proj2 (nth_error_None pre (length pre))) by lia.
      unfold throw. now rewrite app_nil_r.
    + assert (Hhere : nth_error (pre ++ participant :: participants) (length pre)
                      = Some participant).
      { rewrite nth_error_app2, Nat.sub_diag by lia. reflexivity. }
      simpl MatchReminderSender.processTickets. rewrite Hhere. unfold bind.
      replace (pre ++ participant :: participants)
        with ((pre ++ [participant]) ++ participants) by (now rewrite <- app_assoc).
      rewrite <- (length_snoc pre participant).
      simpl combine. simpl filter. unfold isStale at 1. simpl fst. simpl snd.
      destruct (String.eqb (Expo.status ticket) "error"); simpl andb;
        [destruct (Expo.detailsErrorIs ticket "DeviceNotRegistered")|].
      * rewrite removeInvalidToken_run, IH, <- app_assoc. reflexivity.
      * unfold ret. rewrite IH. reflexivity.
      * unfold ret. rewrite IH. reflexivity.
Qed.

(** With no more tickets than participants, the pass over the tickets
    completes normally and clears the tokens of exactly those participants
    whose ticket, at the same position, is an error ticket with
    [DeviceNotRegistered], in order. *)
Theorem processTickets_clears_by_position env tickets participants w :
  length tickets <= length participants ->
  MatchReminderSender.processTickets env tickets participants 0 w
  = (Js.Normal tt,
     w ++ map (fun p => UpdatePushTokenNull (Participant.user_id (fst p)))
            (filter (fun p => isStale (snd p)) (combine participants tickets))).
Proof.
  intros Hlen.
  pose proof (processTickets_run env tickets [] participants w) as Hrun.
  cbn [app length] in Hrun. rewrite Hrun.
  now rewrite (proj2 (Nat.leb_le _ _) Hlen).
Qed.

Lemma processTickets_clears_by_position_witness :
  let env := Sample.scripted [] in
  let tickets := [Sample.delivered; Sample.deviceNotRegistered] in
  length tickets <= length SampleCases.twoParticipants
  /\ MatchReminderSender.processTickets env tickets SampleCases.twoParticipants 0 []
     = (Js.Normal tt,
        [] ++ map (fun p => UpdatePushTokenNull (Participant.user_id (fst p)))
                (filter (fun p => isStale (snd p))
                   (combine SampleCases.twoParticipants tickets))).
Proof.
  split; [simpl; lia|].
  apply (processTickets_clears_by_position (Sample.scripted [])
           [Sample.delivered; Sample.deviceNotRegistered] SampleCases.twoParticipants []).
  simpl. lia.
Defined.

(** With more tickets than participants, the pass over the tickets throws a
    [TypeError] on the first ticket that has no participant, after having
    handled the tickets that have one. *)
Theorem processTickets_throws_past_the_participants env tickets participants w :
  length participants < length tickets ->
  MatchReminderSender.processTickets env tickets participants 0 w
  = (Js.Thrown (Js.TypeError "email"),
     w ++ map (fun p => UpdatePushTokenNull (Participant.user_id (fst p)))
            (filter (fun p => isStale (snd p)) (combine participants tickets))).
Proof.
  intros Hlen.
  pose proof (processTickets_run env tickets [] participants w) as Hrun.
  cbn [app length] in Hrun. rewrite Hrun.
  now rewrite (proj2 (Nat.leb_gt _ _) Hlen).
Qed.

Lemma processTickets_throws_past_the_participants_witness :
  let env := Sample.scripted [] in
  let tickets := [Sample.deviceNotRegistered; Sample.delivered; Sample.delivered] in
  length SampleCases.twoParticipants < length tickets
  /\ MatchReminderSender.processTickets env tickets SampleCases.twoParticipants 0 []
     = (Js.Thrown (Js.TypeError "email"),
        [] ++ map (fun p => UpdatePushTokenNull (Participant.user_id (fst p)))
                (filter (fun p => isStale (snd p))
                   (combine SampleCases.twoParticipants tickets))).
Proof.
  split; [simpl; lia|].
  apply (processTickets_throws_past_the_participants (Sample.scripted [])
           [Sample.deviceNotRegistered; Sample.delivered; Sample.delivered]
           SampleCases.twoParticipants []).
  simpl. lia.
Defined.

Lemma participantQueries_app w1 w2 :
  participantQueries (w1 ++ w2) = participantQueries w1 ++ participantQueries w2.
Proof. apply flat_map_app. Qed.

Lemma participantQueries_submissions chunks :
  participantQueries (map SendPushNotificationsAsync chunks) = [].
Proof. induction chunks; simpl; auto. Qed.

Lemma participantQueries_cleanup cleanup :
  Forall isCleanup cleanup -> participantQueries cleanup = [].
Proof.
  induction 1 as [|c cleanup Hc _ IH]; simpl; [reflexivity|].
  destruct c; simpl in Hc; try contradiction. exact IH.
Qed.

(** One reminder always completes normally; its first call is the participant
    query of its own booking, and it queries no other booking. *)
Lemma processMatchReminder_calls env match_ w :
  exists calls,
    MatchReminderSender.processMatchReminder env match_ w
    = (Js.Normal tt, w ++ RpcGetMatchParticipants (Match.booking_id match_) :: calls)
    /\ participantQueries calls = [].
Proof.
  unfold MatchReminderSender.processMatchReminder, try_catch, bind, await.
  set (query := RpcGetMatchParticipants (Match.booking_id match_)).
  assert (Hmark :
             exists calls,
               (let (c, w') := MatchReminderSender.markReminderSent env
                                 (Match.booking_id match_) (w ++ [query]) in
                match c with
                | Js.Normal a => (Js.Normal a, w')
                | Js.Thrown e => ret tt w'
                end) = (Js.Normal tt, w ++ query :: calls)
               /\ participantQueries calls = []).
  { rewrite markReminderSent_run.
    exists [RpcMarkReminderSent (Match.booking_id match_)].
    rewrite <- app_assoc. split; reflexivity. }
  destruct (rpc_get_match_participants env (length w) (Match.booking_id match_))
    as [response|e]; [|exists []; split; reflexivity].
  destruct (Supabase.error response); [exists []; split; reflexivity|].
  destruct (Supabase.data response) as [participants|]; [|exact Hmark].
  destruct (length participants =? 0); [exact Hmark|].
  destruct (length (filter (MatchReminderSender.hasValidToken env) participants) =? 0);
    [exact Hmark|].
  destruct (remind_run env match_
              (filter (MatchReminderSender.hasValidToken env) participants) (w ++ [query]))
    as (cleanup & Htrace & Hcleanup & _).
  destruct (MatchReminderSender.remind env match_ _ (w ++ [query])) as [[[]|e] w'];
    simpl in Htrace; subst w'; unfold ret;
    (eexists; split; [rewrite <- !app_assoc; reflexivity|]);
    rewrite participantQueries_app, participantQueries_submissions; simpl;
    exact (participantQueries_cleanup _ Hcleanup).
Qed.

(** A reminder never throws, whatever the store and the transport do: a
    failing query, a failing submission, a failing insert, and a transport that
    hands back more tickets than there are participants (on which the pass
    over the tickets throws) all end in a normal completion. *)
Theorem processMatchReminder_never_throws env match_ w :
  exists w', MatchReminderSender.processMatchReminder env match_ w = (Js.Normal tt, w').
Proof.
  destruct (processMatchReminder_calls env match_ w) as (calls & -> & _).
  eexists. reflexivity.
Qed.

(** When the participant query throws or answers with an error, the reminder
    stops there: the query is its only call, so that nothing is submitted,
    nothing is logged and the reminder is not marked as sent. *)
Theorem failed_participant_query_leaves_reminder_pending env match_ w :
  (exists e, rpc_get_match_participants env (length w) (Match.booking_id match_)
             = Js.Thrown e)
  \/ (exists response reason,
        rpc_get_match_participants env (length w) (Match.booking_id match_)
        = Js.Normal response
        /\ Supabase.error response = Some reason) ->
  MatchReminderSender.processMatchReminder env match_ w
  = (Js.Normal tt, w ++ [RpcGetMatchParticipants (Match.booking_id match_)]).
Proof.
  unfold MatchReminderSender.processMatchReminder, try_catch, bind, await.
  intros [(e & ->) | (response & reason & -> & ->)]; reflexivity.
Qed.

Lemma failed_participant_query_leaves_reminder_pending_witness :
  let env := SampleCases.participantsUnavailable (Sample.scripted []) in
  (exists response reason,
     rpc_get_match_participants env 0 "booking-1" = Js.Normal response
     /\ Supabase.error response = Some reason)
  /\ MatchReminderSender.processMatchReminder env SampleInputs.friendly []
     = (Js.Normal tt, [] ++ [RpcGetMatchParticipants "booking-1"]).
Proof.
  split.
  - eexists. eexists. split; reflexivity.
  - apply (failed_participant_query_leaves_reminder_pending
             (SampleCases.participantsUnavailable (Sample.scripted []))
             SampleInputs.friendly []).
    right. eexists. eexists. split; reflexivity.
Defined.

Lemma tokensCleared_app w1 w2 :
  tokensCleared (w1 ++ w2) = tokensCleared w1 ++ tokensCleared w2.
Proof. apply flat_map_app. Qed.

Lemma tokensCleared_submissions chunks :
  tokensCleared (map SendPushNotificationsAsync chunks) = [].
Proof. induction chunks; simpl; auto. Qed.

Lemma tokensCleared_updates {A : Type} (userOf : A -> string) (l : list A) :
  tokensCleared (map (fun x => UpdatePushTokenNull (userOf x)) l) = map userOf l.
Proof. induction l as [|x l IH]; simpl; [reflexivity|]. f_equal. exact IH. Qed.

(** When the transport answers every batch in full, a reminder clears the
    tokens of exactly those valid participants whose own ticket is an error
    ticket with [DeviceNotRegistered], in order, and of nobody else. *)
Theorem reminder_clears_tokens_reported_stale env match_ w response participants :
  let validParticipants := filter (MatchReminderSender.hasValidToken env) participants in
  let chunks := Expo.chunkPushNotifications
                  (map (MatchReminderSender.reminderMessage env match_) validParticipants) in
  let tickets := PushNotificationSender.collected env (S (length w)) chunks in
  rpc_get_match_participants env (length w) (Match.booking_id match_) = Js.Normal response ->
  Supabase.error response = None ->
  Supabase.data response = Some participants ->
  validParticipants <> [] ->
  PushNotificationSender.one_outcome_per_message env ->
  PushNotificationSender.raised env (S (length w)) chunks = [] ->
  exists calls,
    MatchReminderSender.processMatchReminder env match_ w = (Js.Normal tt, w ++ calls)
    /\ length tickets = length validParticipants
    /\ tokensCleared calls
       = map (fun p => Participant.user_id (fst p))
           (filter (fun p => isStale (snd p)) (combine validParticipants tickets)).
Proof.
  intros validParticipants chunks tickets Hquery Herror Hdata Hvalid Hone Hraised.
  assert (Hlen : length tickets = length validParticipants).
  { pose proof (collected_raised_length env chunks (S (length w)) Hone) as Q.
    rewrite Hraised in Q. unfold chunks in Q at 2.
    rewrite chunkPushNotifications_concat, length_map in Q.
    simpl in Q. unfold tickets. lia. }
  assert (Hsome : (length validParticipants =? 0) = false).
  { destruct validParticipants; [congruence|reflexivity]. }
  assert (Hsome' : (length participants =? 0) = false).
  { destruct participants; [now elim Hvalid|reflexivity]. }
  unfold MatchReminderSender.processMatchReminder, try_catch, bind, await.
  rewrite Hquery, Herror, Hdata, Hsome'. fold validParticipants. rewrite Hsome.
  unfold MatchReminderSender.remind, bind. fold chunks.
  rewrite reminder_sendChunks_run, length_snoc. fold tickets. simpl app at 1.
  rewrite logNotifications_run, markReminderSent_run.
  pose proof (processTickets_run env tickets [] validParticipants) as Hrun.
  cbn [app length] in Hrun. rewrite Hlen, Nat.leb_refl in Hrun. rewrite Hrun.
  eexists. split; [rewrite <- !app_assoc; reflexivity|]. split; [exact Hlen|].
  rewrite tokensCleared_app. simpl.
  rewrite tokensCleared_app, tokensCleared_submissions. simpl.
  apply tokensCleared_updates.
Qed.

Lemma reminder_clears_tokens_reported_stale_witness :
  let env := SampleInputs.withParticipants SampleCases.twoParticipants (Sample.failingAt 99) in
  let response := {| Supabase.data := Some SampleCases.twoParticipants;
                     Supabase.error := None |} in
  let chunks := Expo.chunkPushNotifications
                  (map (MatchReminderSender.reminderMessage env SampleInputs.friendly)
                       (filter (MatchReminderSender.hasValidToken env)
                               SampleCases.twoParticipants)) in
  rpc_get_match_participants env 0 "booking-1" = Js.Normal response
  /\ filter (MatchReminderSender.hasValidToken env) SampleCases.twoParticipants <> []
  /\ PushNotificationSender.one_outcome_per_message env
  /\ PushNotificationSender.raised env 1 chunks = []
  /\ exists calls,
       MatchReminderSender.processMatchReminder env SampleInputs.friendly []
       = (Js.Normal tt, [] ++ calls)
       /\ length (PushNotificationSender.collected env 1 chunks)
          = length (filter (MatchReminderSender.hasValidToken env)
                           SampleCases.twoParticipants)
       /\ tokensCleared calls
          = map (fun p => Participant.user_id (fst p))
              (filter (fun p => isStale (snd p))
                 (combine (filter (MatchReminderSender.hasValidToken env)
                                  SampleCases.twoParticipants)
                          (PushNotificationSender.collected env 1 chunks))).
Proof.
  split; [reflexivity|]. split; [discriminate|].
  split; [exact (failingAt_one_outcome_per_message 99)|].
  split; [reflexivity|].
  apply (reminder_clears_tokens_reported_stale
           (SampleInputs.withParticipants SampleCases.twoParticipants (Sample.failingAt 99))
           SampleInputs.friendly []
           {| Supabase.data := Some SampleCases.twoParticipants; Supabase.error := None |}
           SampleCases.twoParticipants).
  - reflexivity.
  - reflexivity.
  - reflexivity.
  - discriminate.
  - exact (failingAt_one_outcome_per_message 99).
  - reflexivity.
Defined.

Lemma processEach_run env matches : forall w,
  exists calls,
    MatchReminderCycle.processEach env matches w = (Js.Normal tt, w ++ calls)
    /\ participantQueries calls = map Match.booking_id matches.
Proof.
  induction matches as [|match_ rest IH]; intros w; simpl.
  - exists []. unfold ret. now rewrite app_nil_r.
  - unfold bind.
    destruct (processMatchReminder_calls env match_ w) as (calls1 & -> & Hq1).
    destruct (IH (w ++ RpcGetMatchParticipants (Match.booking_id match_) :: calls1))
      as (calls2 & -> & Hq2).
    exists ((RpcGetMatchParticipants (Match.booking_id match_) :: calls1) ++ calls2).
    rewrite <- app_assoc. split; [reflexivity|].
    rewrite participantQueries_app. simpl. fold (participantQueries calls1).
    now rewrite Hq1, Hq2.
Qed.

(** One cycle never throws and goes through every match the query answered
    with, in order: the participants of each of them are queried, whatever
    happened to the matches before it.  When the query throws, answers with an
    error or answers with no match, the cycle issues no call at all. *)
Theorem cycle_processes_every_match env answer w :
  exists calls,
    MatchReminderCycle.processMatchReminders env answer w = (Js.Normal tt, w ++ calls)
    /\ participantQueries calls
       = map Match.booking_id (MatchReminderCycle.matchesToProcess answer)
    /\ (MatchReminderCycle.matchesToProcess answer = [] -> calls = []).
Proof.
  unfold MatchReminderCycle.processMatchReminders, MatchReminderCycle.matchesToProcess,
    MatchReminderCycle.resolved, try_catch, bind.
  assert (Hnone : exists calls,
             (Js.Normal tt, w) = (Js.Normal tt, w ++ calls)
             /\ participantQueries calls = map Match.booking_id []
             /\ (@nil Match.t = [] -> calls = [])).
  { exists []. rewrite app_nil_r. repeat split. }
  destruct answer as [response|e]; [|exact Hnone].
  destruct (Supabase.error response); [exact Hnone|].
  destruct (Supabase.data response) as [matches|]; [|exact Hnone].
  destruct matches as [|match_ rest]; [exact Hnone|].
  cbn [length Nat.eqb].
  destruct (processEach_run env (match_ :: rest) w) as (calls & -> & Hq).
  exists calls. repeat split; [assumption | discriminate].
Qed.
